(** * MultimodalLiveClient: the session protocol client

    A shallow embedding of [MultimodalLiveClient] (the websocket client of the
    multimodal live console): its JSON values and [JSON.stringify], the
    inbound-frame dispatcher [receive] with the tool-call gatekeeper and the
    audio/content demultiplexer, the connection handlers, [disconnect], and
    [getConfig] over a store of shared objects; then the code around it: the
    configuration read from the environment, the connection hook
    [useLiveAPI], and the upload widgets that drive the client. *)

From Stdlib Require Import String Ascii List ZArith Lia Bool.
From stdpp Require Import base strings pretty list gmap.
Import ListNotations.

Set Warnings "-register-all".
Local Open Scope string_scope.
Local Open Scope list_scope.

(** ** Strings as the code uses them *)

(** The double-quote character, as a one-character string. *)
Definition dq : string := String (ascii_of_nat 34) EmptyString.

(** [s.includes(pat)] *)
Fixpoint includes (s pat : string) : bool :=
  String.prefix pat s ||
  match s with
  | EmptyString => false
  | String _ s' => includes s' pat
  end.

(** [s.startsWith(pat)] *)
Definition startsWith (s pat : string) : bool := String.prefix pat s.

(** [xs.join(sep)] *)
Fixpoint join (sep : string) (xs : list string) : string :=
  match xs with
  | [] => EmptyString
  | [x] => x
  | x :: rest => x +:+ sep +:+ join sep rest
  end.

(** [s.split(sep)] for a non-empty separator: [skip] counts the characters of
    a matched separator still to be dropped, [cur] is the piece being read
    (reversed). *)
Fixpoint split_aux (sep s : string) (skip : nat) (cur : list ascii) : list string :=
  match s with
  | EmptyString => [string_of_list_ascii (rev cur)]
  | String ch s' =>
      match skip with
      | S k => split_aux sep s' k cur
      | O =>
          if String.prefix sep s
          then string_of_list_ascii (rev cur) :: split_aux sep s' (String.length sep - 1) []
          else split_aux sep s' 0 (ch :: cur)
      end
  end.

Definition split (sep s : string) : list string := split_aux sep s 0 [].

(** ** JSON values and [JSON.stringify] *)

(** A value as [JSON.parse] delivers it.  An object keeps its keys in
    enumeration order.  [JNum n] is the number [n] for the integers that
    JavaScript holds exactly and prints with all their digits, those of
    magnitude up to 2^53 - 1; fractions and the numbers beyond, which
    JavaScript rounds and prints shortened or with an exponent, have no
    counterpart here.  Only the printed form of a number depends on this
    ([stringify] and [toString]); truthiness does not. *)
Inductive json : Type :=
| JNull
| JBool (b : bool)
| JNum (n : Z)
| JStr (s : string)
| JArr (xs : list json)
| JObj (kvs : list (string * json)).

(** The backslash, as a one-character string. *)
Definition bs : string := String (ascii_of_nat 92) EmptyString.

Definition hex_digit (n : nat) : ascii :=
  ascii_of_nat (if Nat.ltb n 10 then 48 + n else 87 + n).

(** One character of a string literal, escaped the way [JSON.stringify]
    does it. *)
Definition escape_char (c : ascii) : string :=
  let n := nat_of_ascii c in
  if Nat.eqb n 34 then bs +:+ dq
  else if Nat.eqb n 92 then bs +:+ bs
  else if Nat.eqb n 8 then bs +:+ "b"
  else if Nat.eqb n 12 then bs +:+ "f"
  else if Nat.eqb n 10 then bs +:+ "n"
  else if Nat.eqb n 13 then bs +:+ "r"
  else if Nat.eqb n 9 then bs +:+ "t"
  else if Nat.ltb n 32
       then bs +:+ "u00"
            +:+ String (hex_digit (n / 16)) (String (hex_digit (n mod 16)) EmptyString)
  else String c EmptyString.

Fixpoint escape (s : string) : string :=
  match s with
  | EmptyString => EmptyString
  | String c s' => escape_char c +:+ escape s'
  end.

Definition quote (s : string) : string := dq +:+ escape s +:+ dq.

(** [JSON.stringify(v)] with no indentation. *)
Fixpoint stringify (v : json) : string :=
  match v with
  | JNull => "null"
  | JBool true => "true"
  | JBool false => "false"
  | JNum n => pretty n
  | JStr s => quote s
  | JArr xs => "[" +:+ join "," (map stringify xs) +:+ "]"
  | JObj kvs =>
      "{" +:+ join "," (map (fun kv => match kv with
                                       | (k, x) => quote k +:+ ":" +:+ stringify x
                                       end) kvs) +:+ "}"
  end.

(** Truthiness of a value; [None] is [undefined]. *)
Definition truthy (v : option json) : bool :=
  match v with
  | None => false
  | Some JNull => false
  | Some (JBool b) => b
  | Some (JNum n) => negb (Z.eqb n 0)
  | Some (JStr s) => negb (String.eqb s EmptyString)
  | Some (JArr _) => true
  | Some (JObj _) => true
  end.

(** [obj[key]] on a plain object. *)
Fixpoint get (key : string) (kvs : list (string * json)) : option json :=
  match kvs with
  | [] => None
  | (k, x) :: rest => if String.eqb k key then Some x else get key rest
  end.

(** String conversion of a value inside a template literal. *)
Fixpoint toString (v : json) : string :=
  match v with
  | JNull => "null"
  | JBool true => "true"
  | JBool false => "false"
  | JNum n => pretty n
  | JStr s => s
  | JArr xs => join "," (map (fun x => match x with
                                       | JNull => EmptyString
                                       | _ => toString x
                                       end) xs)
  | JObj _ => "[object Object]"
  end.

(** ** Messages *)

(** A content part: [{text}], [{inlineData: {mimeType, data}}] or
    [{executableCode: {language, code}}]. *)
Inductive Part : Type :=
| TextPart (text : string)
| InlineDataPart (mimeType data : string)
| ExecutableCodePart (language code : string).

Record FunctionCall : Type := {
  fc_id : string;
  fc_name : string;
  fc_args : json
}.

Record ToolCall : Type := { functionCalls : list FunctionCall }.

Record ToolCallCancellation : Type := { ids : list string }.

Record ServerContent : Type := {
  interrupted : bool;
  turnComplete : bool;
  modelTurn : option (list Part)
}.

(** Modelled from the spec: the type guards [isToolCallMessage],
    [isToolCallCancellationMessage], [isSetupCompleteMessage] and
    [isServerContentMessage] live in multimodal-live-types, which is not among
    the sources; a frame is classified into exactly one variant by the presence
    of the [toolCall], [toolCallCancellation], [setupComplete] or
    [serverContent] key, in that order, and anything else is unmatched. *)
Inductive LiveIncomingMessage : Type :=
| ToolCallMessage (toolCall : ToolCall)
| ToolCallCancellationMessage (toolCallCancellation : ToolCallCancellation)
| SetupCompleteMessage
| ServerContentMessage (serverContent : ServerContent)
| UnmatchedMessage.

(** Modelled from the spec: [isInterrupted], [isTurnComplete] and
    [isModelTurn] (multimodal-live-types) test the [interrupted] flag, the
    [turnComplete] flag and the presence of [modelTurn]; the last one is the
    match on [modelTurn] in [receive]. *)
Definition isInterrupted (sc : ServerContent) : bool := interrupted sc.
Definition isTurnComplete (sc : ServerContent) : bool := turnComplete sc.

Record FunctionResponse : Type := {
  fr_id : string;
  fr_response : json
}.

Record Content : Type := {
  role : string;
  parts : list Part
}.

(** Identity of a socket object, and of an object in the store. *)
Definition WebSocket : Type := nat.
Definition loc : Type := positive.

(** A realtime media chunk: a media type and base64 data. *)
Record GenerativeContentBlob : Type := {
  blob_mimeType : string;
  blob_data : string
}.

Inductive OutboundMessage : Type :=
| SetupMessage (setup : loc)
| ClientContentMessage (turns : list Content) (turnComplete : bool)
| RealtimeInputMessage (mediaChunks : list GenerativeContentBlob)
| ToolResponseMessage (functionResponses : list FunctionResponse).

(** The objects as [JSON.parse] built them, with the keys in the order of the
    wire format. *)
Definition json_of_Part (p : Part) : json :=
  match p with
  | TextPart t => JObj [("text", JStr t)]
  | InlineDataPart m d => JObj [("inlineData", JObj [("mimeType", JStr m); ("data", JStr d)])]
  | ExecutableCodePart l c =>
      JObj [("executableCode", JObj [("language", JStr l); ("code", JStr c)])]
  end.

Definition json_of_parts (ps : list Part) : json := JArr (map json_of_Part ps).

Definition json_of_FunctionCall (fc : FunctionCall) : json :=
  JObj [("id", JStr (fc_id fc)); ("name", JStr (fc_name fc)); ("args", fc_args fc)].

Definition json_of_ToolCallMessage (tc : ToolCall) : json :=
  JObj [("toolCall", JObj [("functionCalls", JArr (map json_of_FunctionCall (functionCalls tc)))])].

Definition json_of_FunctionResponse (fr : FunctionResponse) : json :=
  JObj [("id", JStr (fr_id fr)); ("response", fr_response fr)].

(** ** Events and effects *)

(** What [this.emit(name, payload)] publishes.  A [log] event is kept by its
    type tag; the date and the message of a log entry are not modelled, nor is
    the payload of a [close] event. *)
Inductive Event : Type :=
| EvOpen
| EvClose
| EvLog (type : string)
| EvAudio (data : list Byte.byte)
| EvContent (parts : list Part)
| EvInterrupted
| EvSetupComplete
| EvTurnComplete
| EvToolCall (toolCall : ToolCall)
| EvToolCallCancellation (toolCallCancellation : ToolCallCancellation).

(** What the client does to the outside, in the order it does it:
    [WsSend ws m] is [ws.send(JSON.stringify(m))]. *)
Inductive Effect : Type :=
| Emit (e : Event)
| WsNew (ws : WebSocket) (url : string)
| WsSend (ws : WebSocket) (m : OutboundMessage)
| WsClose (ws : WebSocket)
| Fetch (url : string) (apiKey : option string).

(** How a call ends: it returns a value or throws.  An error is kept by its
    message; the messages of errors raised by the platform are indicative. *)
Inductive Completion (A : Type) : Type :=
| Returned (a : A)
| Threw (message : string).
Arguments Returned {A} a.
Arguments Threw {A} message.

(** A computation: the effects it performed, and how it ended. *)
Definition M (A : Type) : Type := (list Effect * Completion A)%type.

Definition ret {A} (a : A) : M A := ([], Returned a).
Definition throw {A} (message : string) : M A := ([], Threw message).
Definition tell (es : list Effect) : M unit := (es, Returned tt).

Definition bind {A B} (m : M A) (f : A -> M B) : M B :=
  match m with
  | (t, Returned a) => let (t', r) := f a in (t ++ t', r)
  | (t, Threw e) => (t, Threw e)
  end.

Notation "'do' x <- m ; k" := (bind m (fun x => k))
  (at level 10, x name, m at level 100, k at level 200).

(** [try { m } catch (e) { handler e }] *)
Definition try_catch {A} (m : M A) (handler : string -> M A) : M A :=
  match m with
  | (t, Returned a) => (t, Returned a)
  | (t, Threw e) => let (t', r) := handler e in (t ++ t', r)
  end.

(** [xs.filter(f)] for a callback with effects. *)
Fixpoint filterM {A} (f : A -> M bool) (xs : list A) : M (list A) :=
  match xs with
  | [] => ret []
  | x :: rest =>
      do b <- f x;
      do ys <- filterM f rest;
      ret (if b then x :: ys else ys)
  end.

(** [xs.forEach(f)] *)
Fixpoint forEach {A} (f : A -> M unit) (xs : list A) : M unit :=
  match xs with
  | [] => ret tt
  | x :: rest => do _ <- f x; forEach f rest
  end.

(** [Promise.all] over async calls that have all been started: each one runs
    (its effects happen) whatever the others do, and the whole is rejected as
    soon as one of them is. *)
Fixpoint promiseAll {A} (ms : list (M A)) : M (list A) :=
  match ms with
  | [] => ret []
  | (t1, r1) :: rest =>
      let (t2, r2) := promiseAll rest in
      (t1 ++ t2,
       match r1, r2 with
       | Threw e, _ => Threw e
       | Returned _, Threw e => Threw e
       | Returned a, Returned l => Returned (a :: l)
       end)
  end.

Definition trace {A} (m : M A) : list Effect := fst m.
Definition completion {A} (m : M A) : Completion A := snd m.

(** ** The client *)

(** The fields of a [MultimodalLiveClient]: the socket it owns, a reference to
    the stored session config, and the endpoint address (with the access key
    appended by the constructor). *)
Record Client : Type := {
  ws : option WebSocket;
  config : option loc;
  url : string
}.

(** What a request of [fetch] comes back with: a network failure, or a
    response with its [ok] flag, status text and the body as [response.json()]
    reads it ([None] when the body is not JSON). *)
Inductive HttpResult : Type :=
| NetworkError
| HttpResponse (ok : bool) (statusText : string) (body : option json).

(** The collaborators the client is given: [base64ToArrayBuffer] of the
    utils module, which is not among the sources, and the network behind
    [fetch], by request address. *)
Record Env : Type := {
  base64ToArrayBuffer : string -> list Byte.byte;
  http : string -> HttpResult
}.

Definition emit (e : Event) : M unit := tell [Emit e].

(** [this.log(type, message)] *)
Definition log (type : string) : M unit := emit (EvLog type).

(** [_sendDirect(request)] *)
Definition _sendDirect (c : Client) (request : OutboundMessage) : M unit :=
  match ws c with
  | None => throw "WebSocket is not connected"
  | Some w => tell [WsSend w request]
  end.

(** [sendToolResponse(toolResponse)] *)
Definition sendToolResponse (c : Client) (functionResponses : list FunctionResponse) : M unit :=
  do _ <- _sendDirect c (ToolResponseMessage functionResponses);
  log "client.toolResponse".

(** [send(parts, turnComplete)] *)
Definition send (c : Client) (ps : list Part) (turnComplete : bool) : M unit :=
  do _ <- _sendDirect c (ClientContentMessage [{| role := "user"; parts := ps |}] turnComplete);
  log "client.send".

(** The log label of a batch of realtime chunks. *)
Definition mediaLabel (chunks : list GenerativeContentBlob) : string :=
  let hasAudio := existsb (fun ch => includes (blob_mimeType ch) "audio") chunks in
  let hasVideo := existsb (fun ch => includes (blob_mimeType ch) "image") chunks in
  if hasAudio && hasVideo then "audio + video"
  else if hasAudio then "audio"
  else if hasVideo then "video"
  else "unknown".

(** [sendRealtimeInput(chunks)]; the label goes into the log message. *)
Definition sendRealtimeInput (c : Client) (chunks : list GenerativeContentBlob) : M unit :=
  do _ <- _sendDirect c (RealtimeInputMessage chunks);
  log "client.realtimeInput".

(** [disconnect(ws?)]: the client after the call, what it returned, and the
    effects. *)
Definition disconnect (c : Client) (w : option WebSocket) : Client * bool * list Effect :=
  match ws c with
  | Some owned =>
      if match w with
         | None => true
         | Some given => Nat.eqb owned given
         end
      then ({| ws := None; config := config c; url := url c |},
            true,
            [WsClose owned; Emit (EvLog "client.close")])
      else (c, false, [])
  | None => (c, false, [])
  end.

(** How the promise returned by [connect] stands. *)
Inductive Promise : Type :=
| Pending
| Resolved (value : bool)
| Rejected (reason : string).

(** [connect(config)] up to the returned promise: the config is stored and a
    socket [w] is created for the address; its listeners are [onError] and
    [onOpen] below. *)
Definition connect (c : Client) (cfg : option loc) (w : WebSocket)
  : Client * Promise * list Effect :=
  ({| ws := ws c; config := cfg; url := url c |}, Pending, [WsNew w (url c)]).

Definition couldNotConnect (address : string) : string :=
  "Could not connect to " +:+ dq +:+ address +:+ dq.

(** The [error] listener of [connect], attached until the socket opens. *)
Definition onError (c : Client) (w : WebSocket) (evType : string)
  : Client * Promise * list Effect :=
  let '(c1, _, t) := disconnect c (Some w) in
  (c1, Rejected (couldNotConnect (url c1)), t ++ [Emit (EvLog ("server." +:+ evType))]).

(** The [open] listener of [connect]. *)
Definition onOpen (c : Client) (w : WebSocket) (evType : string)
  : Client * Promise * list Effect :=
  match config c with
  | None => (c, Rejected "Invalid config sent to `connect(config)`", [])
  | Some cfg =>
      ({| ws := Some w; config := config c; url := url c |},
       Resolved true,
       [Emit (EvLog ("client." +:+ evType)); Emit EvOpen;
        WsSend w (SetupMessage cfg); Emit (EvLog "client.send")])
  end.

(** The [close] listener, attached once the socket is open; the close reason
    only enters the log message. *)
Definition onClose (c : Client) (w : WebSocket) (evType : string) : Client * list Effect :=
  let '(c1, _, t) := disconnect c (Some w) in
  (c1, t ++ [Emit (EvLog ("server." +:+ evType)); Emit EvClose]).

(** ** The tool-call gatekeeper *)

(** The markers of code-like syntax looked for in a whole frame or turn. *)
Definition hasCodeSyntax (responseStr : string) : bool :=
  includes responseStr "executableCode" || includes responseStr "print(" ||
  includes responseStr "PYTHON" || includes responseStr "code>".

Definition invalidPatterns : list string :=
  [ "print("; "pdf_lookup("; "default_api"; "queries="; "question="; "uri=";
    "function("; ".lookup("; "executableCode"; "PYTHON"; "python"; "console.log";
    "google_search"; "search("; "code>"; "pre>"; "h5>"; "executableCode: PYTHON";
    "code"; "pre" ].

Definition hasInvalidPattern (argsStr : string) : bool :=
  existsb (fun pattern => includes argsStr pattern) invalidPatterns.

Definition example (uri : string) : json :=
  JObj [("name", JStr "pdf_lookup"); ("args", JObj [("pdfUri", JStr uri)])].

Definition codeSyntaxResponse : json :=
  JObj [("error", JStr "CODE SYNTAX DETECTED: Must use pure JSON format");
        ("example", example "uri_here")].

Definition invalidFormatResponse : json :=
  JObj [("error", JStr "INVALID FORMAT: Use only this JSON structure:");
        ("example", example "your_uri_here")].

Definition invalidStructureResponse : json :=
  JObj [("error", JStr "INVALID STRUCTURE: Only pdfUri parameter is allowed");
        ("example", example "your_uri_here")].

Definition fetchFailedResponse : json :=
  JObj [("error", JStr ("Failed to fetch PDF content. Remember to use JSON format: { "
                        +:+ dq +:+ "name" +:+ dq +:+ ": " +:+ dq +:+ "pdf_lookup" +:+ dq
                        +:+ ", " +:+ dq +:+ "args" +:+ dq +:+ ": { " +:+ dq +:+ "pdfUri"
                        +:+ dq +:+ ": " +:+ dq +:+ "uri_here" +:+ dq +:+ " } }"));
        ("example", example "your_uri_here")].

(** [response.toolCall.functionCalls[0]?.id || 'error'] *)
Definition firstIdOrError (tc : ToolCall) : string :=
  match functionCalls tc with
  | [] => "error"
  | fc :: _ => if String.eqb (fc_id fc) EmptyString then "error" else fc_id fc
  end.

(** [args.pdfUri] *)
Definition pdfUri (fc : FunctionCall) : option json :=
  match fc_args fc with
  | JObj kvs => get "pdfUri" kvs
  | _ => None
  end.

(** The callback of [functionCalls.filter]: whether the call is kept, after
    the logging and the corrective responses the callback sends. *)
Definition checkCall (c : Client) (fc : FunctionCall) : M bool :=
  do _ <- log "server.debug";
  if negb (String.eqb (fc_name fc) "pdf_lookup") then
    do _ <- log "server.debug"; ret false
  else
    match fc_args fc with
    | JObj kvs =>
        let argsStr := stringify (fc_args fc) in
        do _ <- log "server.debug";
        if hasInvalidPattern argsStr then
          do _ <- log "server.debug";
          do _ <- sendToolResponse c
                    [{| fr_id := fc_id fc; fr_response := invalidFormatResponse |}];
          ret false
        else if existsb (fun pattern => includes argsStr pattern) invalidPatterns then
          do _ <- log "server.error";
          do _ <- sendToolResponse c
                    [{| fr_id := fc_id fc; fr_response := invalidFormatResponse |}];
          ret false
        else if negb (truthy (get "pdfUri" kvs)) || negb (Nat.eqb (length kvs) 1) then
          do _ <- log "server.error";
          do _ <- sendToolResponse c
                    [{| fr_id := fc_id fc; fr_response := invalidStructureResponse |}];
          ret false
        else ret true
    | _ => do _ <- log "server.error"; ret false
    end.

(** [fetchPdfText(pdfUri)] *)
Definition fetchPdfText (env : Env) (c : Client) (uri : json) : M json :=
  let apiKey := nth_error (split "?key=" (url c)) 1 in
  let address :=
    "https://generativelanguage.googleapis.com/v1beta/files/" +:+ toString uri +:+ "/content" in
  do _ <- tell [Fetch address apiKey];
  match http env address with
  | NetworkError => throw "Failed to fetch"
  | HttpResponse ok statusText body =>
      if negb ok then throw ("Failed to fetch PDF content: " +:+ statusText)
      else
        match body with
        | None => throw "Unexpected token"
        | Some JNull => throw "Cannot read properties of null"
        | Some (JObj kvs) =>
            match get "text" kvs with
            | Some t => ret (if truthy (Some t) then t else JStr EmptyString)
            | None => ret (JStr EmptyString)
            end
        | Some _ => ret (JStr EmptyString)
        end
  end.

(** The async callback mapped over the valid calls. *)
Definition lookupCall (env : Env) (c : Client) (fc : FunctionCall) : M FunctionResponse :=
  match pdfUri fc with
  | Some uri =>
      if negb (truthy (Some uri)) then throw "Missing required parameter: pdfUri"
      else
        do fileText <- fetchPdfText env c uri;
        ret {| fr_id := fc_id fc; fr_response := JObj [("text", fileText)] |}
  | None => throw "Missing required parameter: pdfUri"
  end.

Definition fetchFailedEntry (fc : FunctionCall) : FunctionResponse :=
  {| fr_id := fc_id fc; fr_response := fetchFailedResponse |}.

(** The [if (pdfLookupCalls.length > 0) { try ... catch ... }] block of
    [receive]: the calls are started under the client [c] that handles the
    frame, and the answer is sent under the client [c'] as it is when the
    pending fetches have settled. *)
Definition executeCalls (env : Env) (c c' : Client) (pdfLookupCalls : list FunctionCall)
  : M unit :=
  if Nat.ltb 0 (length pdfLookupCalls) then
    try_catch
      (do functionResponses <- promiseAll (map (lookupCall env c) pdfLookupCalls);
       sendToolResponse c' functionResponses)
      (fun _ => sendToolResponse c' (map fetchFailedEntry pdfLookupCalls))
  else ret tt.

(** The tool-call branch of [receive]. *)
Definition receiveToolCall (env : Env) (c c' : Client) (tc : ToolCall) : M unit :=
  do _ <- log "server.toolCall";
  do _ <- log "server.debug";
  let responseStr := stringify (json_of_ToolCallMessage tc) in
  if hasCodeSyntax responseStr then
    sendToolResponse c [{| fr_id := firstIdOrError tc; fr_response := codeSyntaxResponse |}]
  else
    do pdfLookupCalls <- filterM (checkCall c) (functionCalls tc);
    do _ <- executeCalls env c c' pdfLookupCalls;
    emit (EvToolCall tc).

(** ** The content/audio demultiplexer *)

Definition Part_eqb (p q : Part) : bool :=
  match p, q with
  | TextPart t, TextPart t' => String.eqb t t'
  | InlineDataPart m d, InlineDataPart m' d' => String.eqb m m' && String.eqb d d'
  | ExecutableCodePart l k, ExecutableCodePart l' k' => String.eqb l l' && String.eqb k k'
  | _, _ => false
  end.

(** lodash [difference(array, values)]: the elements of [array] that are not
    among [values], in order.  lodash compares objects by identity; parts are
    compared here by value, which removes the same elements when [values] is
    selected from [array] by a test on the value, as [receive] does. *)
Definition difference (array values : list Part) : list Part :=
  List.filter (fun p => negb (existsb (Part_eqb p) values)) array.

(** [p.inlineData && p.inlineData.mimeType.startsWith("audio/pcm")] *)
Definition isAudioPart (p : Part) : bool :=
  match p with
  | InlineDataPart mimeType _ => startsWith mimeType "audio/pcm"
  | _ => false
  end.

(** [p.inlineData?.data] *)
Definition inlineData_data (p : Part) : option string :=
  match p with
  | InlineDataPart _ data => Some data
  | _ => None
  end.

Definition nl : string := String (ascii_of_nat 10) EmptyString.

(** [this.url.split('files/')[1]?.split('/')[0] || 'your_file_uri'] *)
Definition uriHint (address : string) : string :=
  match nth_error (split "files/" address) 1 with
  | None => "your_file_uri"
  | Some rest =>
      match split "/" rest with
      | first :: _ => if String.eqb first EmptyString then "your_file_uri" else first
      | [] => "your_file_uri"
      end
  end.

(** The corrective text part sent when a model turn carries code syntax. *)
Definition errorMessage (address : string) : Part :=
  TextPart
    ("⚠️ ERROR: Invalid syntax detected. You must use this exact JSON format:" +:+ nl
     +:+ "{" +:+ nl
     +:+ "  " +:+ dq +:+ "name" +:+ dq +:+ ": " +:+ dq +:+ "pdf_lookup" +:+ dq +:+ "," +:+ nl
     +:+ "  " +:+ dq +:+ "args" +:+ dq +:+ ": {" +:+ nl
     +:+ "    " +:+ dq +:+ "pdfUri" +:+ dq +:+ ": " +:+ dq +:+ uriHint address +:+ dq +:+ nl
     +:+ "  }" +:+ nl
     +:+ "}" +:+ nl
     +:+ nl
     +:+ "❌ DO NOT USE:" +:+ nl
     +:+ "- Python code (print, function calls)" +:+ nl
     +:+ "- Any programming syntax" +:+ nl
     +:+ "- Any other parameters" +:+ nl
     +:+ nl
     +:+ "✅ COPY AND PASTE the exact JSON format above, just change the pdfUri value.").

(** The callback of [base64s.forEach]. *)
Definition emitAudio (env : Env) (b64 : option string) : M unit :=
  match b64 with
  | Some s =>
      if negb (String.eqb s EmptyString) then
        do _ <- emit (EvAudio (base64ToArrayBuffer env s));
        log "server.audio"
      else ret tt
  | None => ret tt
  end.

(** The model-turn branch of [receive]. *)
Definition receiveModelTurn (env : Env) (c : Client) (ps : list Part) : M unit :=
  let responseStr := stringify (json_of_parts ps) in
  if hasCodeSyntax responseStr then
    do _ <- log "server.error";
    do _ <- send c [errorMessage (url c)] true;
    emit (EvContent [errorMessage (url c)])
  else
    let audioParts := List.filter isAudioPart ps in
    let base64s := map inlineData_data audioParts in
    let otherParts := difference ps audioParts in
    do _ <- forEach (emitAudio env) base64s;
    if Nat.eqb (length otherParts) 0 then ret tt
    else
      do _ <- emit (EvContent otherParts);
      log "server.content".

(** [receive(blob)], once the frame has been read and classified. *)
Definition receive (env : Env) (c c' : Client) (response : LiveIncomingMessage) : M unit :=
  match response with
  | ToolCallMessage tc => receiveToolCall env c c' tc
  | ToolCallCancellationMessage tcc =>
      do _ <- log "receive.toolCallCancellation";
      emit (EvToolCallCancellation tcc)
  | SetupCompleteMessage =>
      do _ <- log "server.send";
      emit EvSetupComplete
  | ServerContentMessage serverContent =>
      if isInterrupted serverContent then
        do _ <- log "receive.serverContent";
        emit EvInterrupted
      else
        do _ <- (if isTurnComplete serverContent then
                   do _ <- log "server.send";
                   emit EvTurnComplete
                 else ret tt);
        match modelTurn serverContent with
        | Some ps => receiveModelTurn env c ps
        | None => ret tt
        end
  | UnmatchedMessage => ret tt
  end.

(** ** Reading a trace *)

(** The audio and content events of a trace, in order. *)
Definition mediaEvents (t : list Effect) : list Event :=
  flat_map (fun e => match e with
                     | Emit (EvAudio d) => [EvAudio d]
                     | Emit (EvContent ps) => [EvContent ps]
                     | _ => []
                     end) t.

(** The tool-call payloads published through the [toolcall] event. *)
Definition publishedToolCalls (t : list Effect) : list ToolCall :=
  flat_map (fun e => match e with
                     | Emit (EvToolCall tc) => [tc]
                     | _ => []
                     end) t.

(** The messages put on a socket. *)
Definition sent (t : list Effect) : list OutboundMessage :=
  flat_map (fun e => match e with
                     | WsSend _ m => [m]
                     | _ => []
                     end) t.

(** The entries of the tool responses put on a socket. *)
Definition responseEntries (t : list Effect) : list FunctionResponse :=
  flat_map (fun m => match m with
                     | ToolResponseMessage frs => frs
                     | _ => []
                     end) (sent t).

Definition respondedIds (t : list Effect) : list string := map fr_id (responseEntries t).

(** The addresses requested through [fetch]. *)
Definition fetched (t : list Effect) : list string :=
  flat_map (fun e => match e with
                     | Fetch address _ => [address]
                     | _ => []
                     end) t.

(** The sockets closed. *)
Definition closed (t : list Effect) : list WebSocket :=
  flat_map (fun e => match e with
                     | WsClose w => [w]
                     | _ => []
                     end) t.

(** Whether a response payload reports a result ([{text}]). *)
Definition hasText (response : json) : bool :=
  match response with
  | JObj kvs => match get "text" kvs with Some _ => true | None => false end
  | _ => false
  end.

(** The text under [error] of a response payload. *)
Definition errorText (response : json) : option string :=
  match response with
  | JObj kvs => match get "error" kvs with
                | Some (JStr s) => Some s
                | _ => None
                end
  | _ => None
  end.

(** The call given under [example] of a response payload. *)
Definition exampleCall (response : json) : option json :=
  match response with
  | JObj kvs => get "example" kvs
  | _ => None
  end.

(** The member [key] with a string value, as it is written in a JSON text. *)
Definition member (key value : string) : string :=
  dq +:+ key +:+ dq +:+ ": " +:+ dq +:+ value +:+ dq.

(** ** The stored config and [getConfig] *)

(** A property of an object in the store is a plain value or a reference to
    another object of the store. *)
Inductive value : Type :=
| VJson (j : json)
| VRef (l : loc).

(** [getConfig()]: [{ ...this.config }] allocates a new object and copies the
    own properties of the stored config into it (none when the config is
    [null]); property values that are references are copied as references. *)
Definition getConfig (c : Client) (h : gmap loc (gmap string value))
  : loc * gmap loc (gmap string value) :=
  let fields :=
    match config c with
    | Some a => default ∅ (h !! a)
    | None => ∅
    end in
  let r := fresh (dom h) in
  (r, <[r := fields]> h).

(** What a caller can do to an object it holds: [o[key] = v] and
    [delete o[key]]. *)
Inductive Mutation : Type :=
| SetProperty (key : string) (v : value)
| DeleteProperty (key : string).

Definition mutate (l : loc) (m : Mutation) (h : gmap loc (gmap string value))
  : gmap loc (gmap string value) :=
  match h !! l with
  | Some o =>
      <[l := match m with
             | SetProperty key v => <[key := v]> o
             | DeleteProperty key => delete key o
             end]> h
  | None => h
  end.

Definition mutateAll (l : loc) (ms : list Mutation) (h : gmap loc (gmap string value))
  : gmap loc (gmap string value) :=
  fold_left (fun h' m => mutate l m h') ms h.

(** The stored config as the client reads it. *)
Definition storedConfig (c : Client) (h : gmap loc (gmap string value))
  : option (gmap string value) :=
  match config c with
  | Some a => h !! a
  | None => None
  end.

(** The stored config, when there is one, is an object of the store. *)
Definition config_allocated (c : Client) (h : gmap loc (gmap string value)) : Prop :=
  match config c with
  | Some a => is_Some (h !! a)
  | None => True
  end.

(** ** Worked inputs *)

(** Modelled from the spec: [base64ToArrayBuffer] (utils, not among the
    sources) turns a base64 payload into its raw bytes.  This decoder of the
    standard alphabet instantiates it in the worked examples; the theorems are
    stated for any decoder. *)
Definition sextet (ch : ascii) : option N :=
  let n := N_of_ascii ch in
  if (N.leb 65 n && N.leb n 90)%bool then Some (n - 65)%N
  else if (N.leb 97 n && N.leb n 122)%bool then Some (n - 71)%N
  else if (N.leb 48 n && N.leb n 57)%bool then Some (n + 4)%N
  else if N.eqb n 43 then Some 62%N
  else if N.eqb n 47 then Some 63%N
  else None.

Fixpoint sextets (s : string) : list N :=
  match s with
  | EmptyString => []
  | String ch s' =>
      match sextet ch with
      | Some v => v :: sextets s'
      | None => sextets s'
      end
  end.

Definition octet (n : N) : Byte.byte := byte_of_ascii (ascii_of_N (n mod 256)).

Fixpoint octets (vs : list N) : list Byte.byte :=
  match vs with
  | a :: b :: c :: d :: rest =>
      octet (a * 4 + b / 16) :: octet (b * 16 + c / 4) :: octet (c * 64 + d) :: octets rest
  | [a; b; c] => [octet (a * 4 + b / 16); octet (b * 16 + c / 4)]
  | [a; b] => [octet (a * 4 + b / 16)]
  | _ => []
  end%N.

Definition decodeBase64 (s : string) : list Byte.byte := octets (sextets s).

(** A network where [files/abc123] holds the text [hello world] and every
    other request is answered 404. *)
Definition sampleHttp (address : string) : HttpResult :=
  if String.eqb address
       "https://generativelanguage.googleapis.com/v1beta/files/files/abc123/content"
  then HttpResponse true "OK" (Some (JObj [("text", JStr "hello world")]))
  else HttpResponse false "Not Found" None.

Definition sampleEnv : Env :=
  {| base64ToArrayBuffer := decodeBase64; http := sampleHttp |}.

(** A client that owns socket 1, and one that owns none. *)
Definition connected : Client :=
  {| ws := Some 1; config := Some 1%positive; url := "wss://host/ws?key=K1" |}.

Definition unconnected : Client :=
  {| ws := None; config := None; url := "wss://host/ws?key=K1" |}.

(** A store whose object 1 is a config with a model name and a reference to
    its generation settings, object 2. *)
Definition sampleStore : gmap loc (gmap string value) :=
  <[1%positive := <["model" := VJson (JStr "models/gemini")]>
                    (<["generationConfig" := VRef 2%positive]> ∅)]>
    (<[2%positive := <["temperature" := VJson (JNum 1)]> ∅]> ∅).

Definition call (i : string) (a : json) : FunctionCall :=
  {| fc_id := i; fc_name := "pdf_lookup"; fc_args := a |}.

(** ** The gatekeeper's decisions, read off [checkCall] *)

(** Whether the filter callback keeps a call. *)
Definition validCall (fc : FunctionCall) : bool :=
  String.eqb (fc_name fc) "pdf_lookup" &&
  match fc_args fc with
  | JObj kvs =>
      negb (hasInvalidPattern (stringify (fc_args fc))) &&
      truthy (get "pdfUri" kvs) && Nat.eqb (length kvs) 1
  | _ => false
  end.

(** The calls queued for execution. *)
Definition pdfLookupCalls (tc : ToolCall) : list FunctionCall :=
  List.filter validCall (functionCalls tc).

(** The corrective payload the filter callback answers a call with, if any. *)
Definition correction (fc : FunctionCall) : option json :=
  if String.eqb (fc_name fc) "pdf_lookup" then
    match fc_args fc with
    | JObj kvs =>
        if hasInvalidPattern (stringify (fc_args fc)) then Some invalidFormatResponse
        else if negb (truthy (get "pdfUri" kvs)) || negb (Nat.eqb (length kvs) 1)
             then Some invalidStructureResponse
             else None
    | _ => None
    end
  else None.

Definition correctionEntries (fc : FunctionCall) : list FunctionResponse :=
  match correction fc with
  | Some r => [{| fr_id := fc_id fc; fr_response := r |}]
  | None => []
  end.

(** The client reduced to the socket it owns. *)
Definition owning (w : WebSocket) : Client :=
  {| ws := Some w; config := None; url := EmptyString |}.

(** The effects of the filter callback on one call, under a client that owns
    socket [w]. *)
Definition checkEffects (w : WebSocket) (fc : FunctionCall) : list Effect :=
  trace (checkCall (owning w) fc).

(** The request address of a call's fetch. *)
Definition fetchAddress (fc : FunctionCall) : string :=
  "https://generativelanguage.googleapis.com/v1beta/files/"
  +:+ toString (default JNull (pdfUri fc)) +:+ "/content".

(** The base64 payload of a part ([p.inlineData?.data], empty when absent). *)
Definition payload (p : Part) : string :=
  match inlineData_data p with
  | Some data => data
  | None => EmptyString
  end.

(** The events the demultiplexer is said to emit for a turn: one audio event
    per audio part, then one content event when there are other parts. *)
Definition demuxAsStated (env : Env) (ps : list Part) : list Event :=
  map (fun p => EvAudio (base64ToArrayBuffer env (payload p))) (List.filter isAudioPart ps)
  ++ match List.filter (fun p => negb (isAudioPart p)) ps with
     | [] => []
     | others => [EvContent others]
     end.

(** The audio payloads that are decoded: those of the audio parts that are
    not empty. *)
Definition audioPayloads (ps : list Part) : list string :=
  List.filter (fun s => negb (String.eqb s EmptyString))
    (map payload (List.filter isAudioPart ps)).

(** The access key [fetchPdfText] reads off the endpoint address. *)
Definition apiKey (c : Client) : option string := nth_error (split "?key=" (url c)) 1.

(** The entries the batch is answered with: the results when every fetch
    succeeded, the uniform failure entries otherwise. *)
Definition batchAnswer (env : Env) (c : Client) (calls : list FunctionCall)
  : list FunctionResponse :=
  match completion (promiseAll (map (lookupCall env c) calls)) with
  | Returned frs => frs
  | Threw _ => map fetchFailedEntry calls
  end.

Definition modelTurnMessage (tc : bool) (ps : list Part) : LiveIncomingMessage :=
  ServerContentMessage {| interrupted := false; turnComplete := tc; modelTurn := Some ps |}.

(** The effects of the turn-complete notice that may precede a model turn. *)
Definition turnCompleteEffects (tc : bool) : list Effect :=
  if tc then [Emit (EvLog "server.send"); Emit EvTurnComplete] else [].

(** Scenario inputs. *)
Definition scenarioC : list Part :=
  [InlineDataPart "audio/pcm;rate=24000" "aGk="; TextPart "hi"].

Definition silentAudio : list Part := [InlineDataPart "audio/pcm" EmptyString].

Definition codeTurn : list Part := [TextPart "print(1)"].

Definition scenarioA : ToolCall :=
  {| functionCalls := [call "1" (JObj [("pdfUri", JStr "files/abc123")])] |}.

Definition scenarioB : ToolCall :=
  {| functionCalls := [call "1" (JObj [("pdfUri", JStr "files/abc123"); ("extra", JStr "x")])] |}.

(** Two calls, the second with [print(] in its argument. *)
Definition printCall : FunctionCall := call "2" (JObj [("pdfUri", JStr "print(1)")]).

Definition markedFrame : ToolCall :=
  {| functionCalls := [call "1" (JObj [("pdfUri", JStr "files/abc123")]); printCall] |}.

(** A call whose arguments are an array, and one whose [pdfUri] is a number. *)
Definition arrayFrame : ToolCall := {| functionCalls := [call "1" (JArr [])] |}.

Definition numberFrame : ToolCall :=
  {| functionCalls := [call "1" (JObj [("pdfUri", JNum 123)])] |}.

(** A marked frame whose first call has an empty id. *)
Definition anonymousFrame : ToolCall :=
  {| functionCalls := [call EmptyString (JObj [("pdfUri", JStr "print(1)")])] |}.

(** Two valid calls, the second for a file the network does not have. *)
Definition missingCall : FunctionCall := call "2" (JObj [("pdfUri", JStr "files/missing")]).

Definition failingBatch : ToolCall :=
  {| functionCalls := [call "1" (JObj [("pdfUri", JStr "files/abc123")]); missingCall] |}.

(** ** The rest of the client *)

Definition defaultUrl : string :=
  "wss://generativelanguage.googleapis.com/ws/google.ai.generativelanguage.v1alpha.GenerativeService.BidiGenerateContent".

(** The constructor: the address defaults when none (or an empty one) is
    given, and the access key is appended as a query parameter. *)
Definition newClient (address : option string) (key : string) : Client :=
  let base :=
    match address with
    | Some u => if String.eqb u EmptyString then defaultUrl else u
    | None => defaultUrl
    end in
  {| ws := None; config := None; url := base +:+ "?key=" +:+ key |}.

(** The loop of [sendRealtimeInput] over the chunks, with its early exit:
    the flags [hasAudio] and [hasVideo] when the loop ends. *)
Fixpoint scanChunks (chunks : list GenerativeContentBlob) (hasAudio hasVideo : bool)
  : bool * bool :=
  match chunks with
  | [] => (hasAudio, hasVideo)
  | ch :: rest =>
      let hasAudio' := if includes (blob_mimeType ch) "audio" then true else hasAudio in
      let hasVideo' := if includes (blob_mimeType ch) "image" then true else hasVideo in
      if hasAudio' && hasVideo' then (hasAudio', hasVideo')
      else scanChunks rest hasAudio' hasVideo'
  end.

(** The log message of [sendRealtimeInput], as its loop computes it. *)
Definition realtimeLabel (chunks : list GenerativeContentBlob) : string :=
  let (hasAudio, hasVideo) := scanChunks chunks false false in
  if hasAudio && hasVideo then "audio + video"
  else if hasAudio then "audio"
  else if hasVideo then "video"
  else "unknown".

(** [s.toLowerCase()] on the letters A to Z; a string is read as its sequence
    of code units. *)
Definition lowerChar (ch : ascii) : ascii :=
  let n := nat_of_ascii ch in
  if Nat.leb 65 n && Nat.leb n 90 then ascii_of_nat (n + 32) else ch.

Fixpoint toLowerCase (s : string) : string :=
  match s with
  | EmptyString => EmptyString
  | String ch s' => String (lowerChar ch) (toLowerCase s')
  end.

(** [s.indexOf(pat)], [None] for -1. *)
Fixpoint indexOf_from (pat s : string) (i : nat) : option nat :=
  if String.prefix pat s then Some i
  else match s with
       | EmptyString => None
       | String _ s' => indexOf_from pat s' (S i)
       end.

Definition indexOf (pat s : string) : option nat := indexOf_from pat s 0.

(** [s.slice(n, Infinity)] for [n >= 0]. *)
Fixpoint slice (n : nat) (s : string) : string :=
  match n, s with
  | O, _ => s
  | S _, EmptyString => EmptyString
  | S k, String _ s' => slice k s'
  end.

(** The reason the [close] listener reports: [ev.reason || ""], with the
    prelude and the character after it dropped when the reason mentions an
    error and the prelude [ERROR]] starts after the first character. *)
Definition closeReason (evReason : option string) : string :=
  let reason := match evReason with Some r => r | None => EmptyString end in
  if includes (toLowerCase reason) "error" then
    match indexOf "ERROR]" reason with
    | Some (S i) => slice (S i + String.length "ERROR]" + 1) reason
    | _ => reason
    end
  else reason.

(** The message logged by the [close] listener. *)
Definition closeMessage (evReason : option string) : string :=
  "disconnected " +:+
  (if String.eqb (closeReason evReason) EmptyString then EmptyString
   else "with reason: " +:+ closeReason evReason).

(** The sockets a trace creates, and the sockets it sends on. *)
Definition opened (t : list Effect) : list WebSocket :=
  flat_map (fun e => match e with
                     | WsNew w _ => [w]
                     | _ => []
                     end) t.

Definition sentOn (t : list Effect) : list WebSocket :=
  flat_map (fun e => match e with
                     | WsSend w _ => [w]
                     | _ => []
                     end) t.

(** Whether a character occurs in a string. *)
Fixpoint occurs (ch : ascii) (s : string) : bool :=
  match s with
  | EmptyString => false
  | String x s' => Ascii.eqb x ch || occurs ch s'
  end.

(** The entry a successful lookup of a call is answered with. *)
Definition textEntry (fc : FunctionCall) (text : json) : FunctionResponse :=
  {| fr_id := fc_id fc; fr_response := JObj [("text", text)] |}.

(** An effect that respects the sockets: a send goes to the socket owned by
    [c] or by [c'], and no socket is created or closed. *)
Definition ownedOnly (c c' : Client) (e : Effect) : Prop :=
  match e with
  | WsSend w _ => ws c = Some w \/ ws c' = Some w
  | WsNew _ _ => False
  | WsClose _ => False
  | _ => True
  end.

(** An effect that is not a request of [fetch]. *)
Definition noFetch (e : Effect) : Prop :=
  match e with
  | Fetch _ _ => False
  | _ => True
  end.

(** A frame with a call for another function, and the released client. *)
Definition foreignFrame : ToolCall :=
  {| functionCalls :=
       [{| fc_id := "9"; fc_name := "render_altair"; fc_args := JObj [("json_graph", JStr "{}")] |}] |}.

Definition released (c : Client) : Client :=
  {| ws := None; config := config c; url := url c |}.

(** A character that [JSON.stringify] copies as it is, and a string made of
    such characters. *)
Definition plainChar (ch : ascii) : bool :=
  String.eqb (escape_char ch) (String ch EmptyString).

Fixpoint plain (s : string) : bool :=
  match s with
  | EmptyString => true
  | String ch s' => plainChar ch && plain s'
  end.

(** ** Configuration from the environment *)

Definition requiredEnvVars : list string := ["REACT_APP_GEMINI_MODEL"].

(** [validateEnv()] over [process.env]: a variable that is unset or empty is
    missing. *)
Definition validateEnv (env : gmap string string) : Completion unit :=
  let missing :=
    List.filter (fun key => match env !! key with
                            | Some v => String.eqb v EmptyString
                            | None => true
                            end) requiredEnvVars in
  if Nat.ltb 0 (length missing)
  then Threw ("Missing required environment variables: " +:+ join ", " missing)
  else Returned tt.

Section Numbers.
(** The numbers of the platform: [Number(x)] of an environment value that may
    be unset, and the numbers that are falsy (0 and NaN). *)
Variable number : Type.
Variable Number : option string -> number.
Variable isFalsy : number -> bool.

Record EnvConfig : Type := {
  env_model : string;
  env_temperature : option number;
  env_maxOutputTokens : option number
}.

(** [Number(x) || undefined] *)
Definition numberOrUndefined (v : option string) : option number :=
  if isFalsy (Number v) then None else Some (Number v).

(** [getEnvConfig()] *)
Definition getEnvConfig (env : gmap string string) : Completion EnvConfig :=
  match validateEnv env with
  | Threw e => Threw e
  | Returned _ =>
      Returned {| env_model := default EmptyString (env !! "REACT_APP_GEMINI_MODEL");
                  env_temperature := numberOrUndefined (env !! "REACT_APP_TEMPERATURE");
                  env_maxOutputTokens := numberOrUndefined (env !! "REACT_APP_MAX_TOKENS") |}
  end.

Record GenerationConfig : Type := {
  temperature : number;
  maxOutputTokens : number
}.

(** [getGenerationConfig()] of the PDF configuration module. *)
Definition getGenerationConfig (env : gmap string string) : GenerationConfig :=
  {| temperature := Number (env !! "REACT_APP_TEMPERATURE");
     maxOutputTokens := Number (env !! "REACT_APP_MAX_TOKENS") |}.

(** ** The session config and the connection hook *)

Record FunctionDeclaration : Type := {
  fd_name : string;
  fd_description : string;
  fd_parameters : json
}.

(** Modelled from the spec: [LiveConfig] (multimodal-live-types, not among the
    sources) holds the model, the optional system instruction parts, the
    optional generation parameters and the optional declared tools; a tool is
    a set of function declarations, the search tool or the code tool. *)
Inductive Tool : Type :=
| FunctionDeclarationsTool (function_declarations : option (list FunctionDeclaration))
| GoogleSearchTool
| CodeExecutionTool.

Record LiveConfig : Type := {
  lc_model : string;
  lc_systemInstruction : option (list Part);
  lc_generationConfig : option GenerationConfig;
  lc_tools : option (list Tool)
}.

(** ['function_declarations' in tool &&
     tool.function_declarations?.some(fd => fd.name === 'pdf_lookup')] *)
Definition declaresPdfLookup (tool : Tool) : bool :=
  match tool with
  | FunctionDeclarationsTool (Some fds) =>
      existsb (fun fd => String.eqb (fd_name fd) "pdf_lookup") fds
  | _ => false
  end.

(** [config.systemInstruction?.parts?.[0]?.text], as a truth value. *)
Definition hasInstructionText (config : LiveConfig) : bool :=
  match lc_systemInstruction config with
  | Some (TextPart text :: _) => negb (String.eqb text EmptyString)
  | _ => false
  end.

(** The checks [connect] of the hook makes before it touches the client. *)
Definition validateConfig (config : option LiveConfig) : Completion LiveConfig :=
  match config with
  | None => Threw "config has not been set"
  | Some cfg =>
      match lc_tools cfg with
      | None => Threw "Tools configuration is required"
      | Some tools =>
          match find declaresPdfLookup tools with
          | None => Threw "PDF lookup tool not properly configured"
          | Some _ =>
              if negb (hasInstructionText cfg)
              then Threw "System instruction must be configured"
              else Returned cfg
          end
      end
  end.

(** The state of the hook [useLiveAPI]: its client and its [connected] flag. *)
Record LiveAPI : Type := {
  api_client : Client;
  api_connected : bool
}.

(** [connect] of the hook up to its [await]: the config (an object of the
    store, with its content) is validated, the client is disconnected and a
    connection attempt on a new socket [w] is started. *)
Definition hookConnect (st : LiveAPI) (config : option (loc * LiveConfig)) (w : WebSocket)
  : LiveAPI * list Effect * Completion Promise :=
  match validateConfig (option_map snd config) with
  | Threw e => (st, [], Threw e)
  | Returned _ =>
      let '(c1, _, t1) := disconnect (api_client st) None in
      let '(c2, p, t2) := connect c1 (option_map fst config) w in
      ({| api_client := c2; api_connected := api_connected st |}, t1 ++ t2, Returned p)
  end.

(** [connect] of the hook after its [await], once the promise has settled. *)
Definition hookConnected (st : LiveAPI) (p : Promise) : LiveAPI * Completion unit :=
  match p with
  | Resolved _ => ({| api_client := api_client st; api_connected := true |}, Returned tt)
  | Rejected reason => (st, Threw reason)
  | Pending => (st, Returned tt)
  end.

(** [disconnect] of the hook. *)
Definition hookDisconnect (st : LiveAPI) : LiveAPI * list Effect :=
  let '(c1, _, t) := disconnect (api_client st) None in
  ({| api_client := c1; api_connected := false |}, t).

(** The listener of the hook for the [close] event of the client. *)
Definition hookOnClose (st : LiveAPI) : LiveAPI :=
  {| api_client := api_client st; api_connected := false |}.

(** A socket event reaching the client and, through the events it emits, the
    hook: the [open] and [close] listeners of [connect]. *)
Definition socketOpened (st : LiveAPI) (w : WebSocket) : LiveAPI * Promise * list Effect :=
  let '(c1, p, t) := onOpen (api_client st) w "open" in
  ({| api_client := c1; api_connected := api_connected st |}, p, t).

Definition socketClosed (st : LiveAPI) (w : WebSocket) : LiveAPI * list Effect :=
  let '(c1, t) := onClose (api_client st) w "close" in
  (hookOnClose {| api_client := c1; api_connected := api_connected st |}, t).

(** The effect of the control tray that configures the session once a PDF
    has been chosen: the config handed to [setConfig], if any. *)
Definition configurePdfSession (env : gmap string string) (pdfData : option string)
  : option LiveConfig :=
  match pdfData with
  | None => None
  | Some data =>
      if String.eqb data EmptyString then None
      else
        match getEnvConfig env with
        | Threw _ => None
        | Returned envConfig =>
            Some {| lc_model := env_model envConfig;
                    lc_systemInstruction :=
                      Some [TextPart "Analyze the provided PDF document and help answer questions about its content.";
                            InlineDataPart "application/pdf" data];
                    lc_generationConfig := Some (getGenerationConfig env);
                    lc_tools := None |}
        end
  end.
End Numbers.

(** ** The upload widgets *)

Record File : Type := {
  file_name : string;
  file_type : string;
  file_size : N
}.

(** What a widget does: dialogs, its own state, calls of its props, and the
    effects of the client it drives.  Console output is not modelled. *)
Inductive UiEffect : Type :=
| Alert (message : string)
| ResetInput
| SetIsProcessingPDF (b : bool)
| ReadAsDataURL (f : File)
| ReadAsText (f : File)
| OnPDFSelect (data : string)
| SetPdfData (data : string)
| OnUploadComplete (uri : string)
| OnError (message : string)
| ClientDid (e : Effect).

Definition clientEffects (t : list UiEffect) : list Effect :=
  flat_map (fun e => match e with
                     | ClientDid x => [x]
                     | _ => []
                     end) t.

(** A computation of the client run from a widget. *)
Definition liftClient {A} (m : M A) : list UiEffect * Completion A :=
  (map ClientDid (trace m), completion m).

Definition MAX_FILE_SIZE : N := 10 * 1024 * 1024.

(** How a [FileReader] ends: loaded with a result, or failed. *)
Inductive ReadResult : Type :=
| ReadLoaded (result : option string)
| ReadFailed.

(** [readFileAsBase64()]: the text after the first comma of the data URL, up
    to the next one, when it is not empty. *)
Definition readFileAsBase64 (r : ReadResult) : Completion string :=
  match r with
  | ReadLoaded (Some dataUrl) =>
      match nth_error (split "," dataUrl) 1 with
      | Some base64data =>
          if String.eqb base64data EmptyString
          then Threw "Failed to extract base64 data"
          else Returned base64data
      | None => Threw "Failed to extract base64 data"
      end
  | ReadLoaded None => Threw "Failed to extract base64 data"
  | ReadFailed => Threw "NotReadableError"
  end.

Definition processingError : UiEffect := Alert "Error processing PDF. Please try again.".

(** [handleChange] of [PDFUploadButton], for the file chosen (if any), the
    outcome of reading it and the [onPDFSelect] prop. *)
Definition handleChange (onPDFSelect : string -> list UiEffect * Completion unit)
           (file : option File) (r : ReadResult) : list UiEffect :=
  match file with
  | None => []
  | Some f =>
      ResetInput ::
      if N.ltb MAX_FILE_SIZE (file_size f) then [Alert "File too large (max 10MB)"]
      else if negb (String.eqb (file_type f) "application/pdf")
      then [Alert "Invalid file type. Please upload a PDF file."]
      else
        SetIsProcessingPDF true :: ReadAsDataURL f ::
        match readFileAsBase64 r with
        | Returned base64data =>
            OnPDFSelect base64data ::
            let (t, outcome) := onPDFSelect base64data in
            t ++ match outcome with
                 | Returned _ => []
                 | Threw _ => [processingError]
                 end
        | Threw _ => [processingError]
        end ++ [SetIsProcessingPDF false]
  end.

Definition pdfChunk (data : string) : GenerativeContentBlob :=
  {| blob_mimeType := "application/pdf"; blob_data := data |}.

(** The upload button of the side panel: the chosen PDF is sent as realtime
    input. *)
Definition sidePanelUpload (c : Client) (file : option File) (r : ReadResult)
  : list UiEffect :=
  handleChange (fun data => liftClient (sendRealtimeInput c [pdfChunk data])) file r.

(** The upload button of the control tray: the chosen PDF is kept as
    [pdfData]. *)
Definition controlTrayUpload (file : option File) (r : ReadResult) : list UiEffect :=
  handleChange (fun data => ([SetPdfData data], Returned tt)) file r.

(** [handleFileUpload] of the [PDFUpload] widget that sends the text of the
    file into the conversation.  Both props are optional: [onUploadComplete]
    is given by how the prop ends for a name ([None] when the prop is absent),
    [onError] by whether the prop is given; the trace records the calls of
    the props, not what the props do.  [read] is what the reader delivers:
    the handler listens to [onload] only, so after a failed read ([None]) it
    is never resumed.  [now] is the clock, and [c] the client as it is when
    the read has completed (its address never changes).  Everything after the
    choice of the file is inside the [try], the call of [onUploadComplete]
    included. *)
Definition handleFileUpload (c : Client)
           (onUploadComplete : option (string -> Completion unit)) (onError : bool)
           (file : option File) (read : option string) (now : Z)
  : list UiEffect :=
  match file with
  | None => []
  | Some f =>
      let caught (e : string) := if onError then [OnError e] else [] in
      match apiKey c with
      | Some key =>
          if String.eqb key EmptyString then caught "API key not available"
          else
            ReadAsText f ::
            match read with
            | Some textContent =>
                let (t, outcome) :=
                  liftClient (send c [TextPart ("PDF Content from " +:+ file_name f +:+ ":"
                                                +:+ nl +:+ nl +:+ textContent)] true) in
                t ++ match outcome with
                     | Returned _ =>
                         let tempUri := "pdf-" +:+ pretty now +:+ "-" +:+ file_name f in
                         match onUploadComplete with
                         | Some prop =>
                             OnUploadComplete tempUri ::
                             match prop tempUri with
                             | Returned _ => []
                             | Threw e => caught e
                             end
                         | None => []
                         end
                     | Threw e => caught e
                     end
            | None => []
            end
      | None => caught "API key not available"
      end
  end.

(** The calls of the props [onUploadComplete] and [onError] in a run. *)
Definition uploadCallbacks (t : list UiEffect) : list UiEffect :=
  List.filter (fun e => match e with
                        | OnUploadComplete _ | OnError _ => true
                        | _ => false
                        end) t.

(** A PDF file of 10 MiB, and the data URL of a small one. *)
Definition largestPdf : File :=
  {| file_name := "report.pdf"; file_type := "application/pdf"; file_size := MAX_FILE_SIZE |}.

Arguments env_model {number} _.
Arguments env_temperature {number} _.
Arguments env_maxOutputTokens {number} _.
Arguments lc_model {number} _.
Arguments lc_systemInstruction {number} _.
Arguments lc_generationConfig {number} _.
Arguments lc_tools {number} _.
Arguments hasInstructionText {number} _.
Arguments validateConfig {number} _.
Arguments hookConnect {number} _ _ _.

(** The value of the hook's processing flag after a run that starts with the
    flag at [b]. *)
Fixpoint processingAfter (t : list UiEffect) (b : bool) : bool :=
  match t with
  | [] => b
  | SetIsProcessingPDF b' :: rest => processingAfter rest b'
  | _ :: rest => processingAfter rest b
  end.

(** Numbers for the worked examples: the naturals, with every environment
    value read as 0. *)
Definition sampleNumber (v : option string) : nat := 0.

Definition sampleProcessEnv : gmap string string :=
  <["REACT_APP_GEMINI_MODEL" := "models/gemini"]> ∅.

Definition sampleTools : list Tool :=
  [GoogleSearchTool;
   FunctionDeclarationsTool
     (Some [{| fd_name := "pdf_lookup"; fd_description := "lookup"; fd_parameters := JNull |}])].

Definition sampleLiveConfig : LiveConfig nat :=
  {| lc_model := "models/gemini";
     lc_systemInstruction := Some [TextPart "You are a PDF analysis assistant"];
     lc_generationConfig := None;
     lc_tools := Some sampleTools |}.

Definition sampleApi : LiveAPI := {| api_client := connected; api_connected := true |}.

(** * Properties *)

(** ** Worked examples *)

Example stringify_sample :
  stringify (JObj [("pdfUri", JStr "files/abc123"); ("n", JArr [JNum (-7); JNull; JBool true])])
  = "{" +:+ dq +:+ "pdfUri" +:+ dq +:+ ":" +:+ dq +:+ "files/abc123" +:+ dq +:+ ","
        +:+ dq +:+ "n" +:+ dq +:+ ":[-7,null,true]}".
Proof. vm_compute. reflexivity. Qed.

Example stringify_escapes :
  stringify (JStr (dq +:+ "a" +:+ nl)) = dq +:+ bs +:+ dq +:+ "a" +:+ bs +:+ "n" +:+ dq.
Proof. vm_compute. reflexivity. Qed.

Example split_sample : split "?key=" "wss://host/ws?key=K1" = ["wss://host/ws"; "K1"].
Proof. reflexivity. Qed.

Example uriHint_sample :
  uriHint "wss://host/files/abc/x?key=K1" = "abc" /\ uriHint "wss://host/ws?key=K1" = "your_file_uri".
Proof. split; reflexivity. Qed.

Example decodeBase64_sample : decodeBase64 "aGk=" = [Byte.x68; Byte.x69].
Proof. reflexivity. Qed.

(** A valid call is fetched and answered with the text, then the raw call is
    published. *)
Example scenarioA_trace :
  receive sampleEnv connected connected (ToolCallMessage scenarioA)
  = ([Emit (EvLog "server.toolCall"); Emit (EvLog "server.debug");
      Emit (EvLog "server.debug"); Emit (EvLog "server.debug");
      Fetch "https://generativelanguage.googleapis.com/v1beta/files/files/abc123/content"
            (Some "K1");
      WsSend 1 (ToolResponseMessage
                  [{| fr_id := "1"; fr_response := JObj [("text", JStr "hello world")] |}]);
      Emit (EvLog "client.toolResponse");
      Emit (EvToolCall scenarioA)],
     Returned tt).
Proof. vm_compute. reflexivity. Qed.

(** A call with two keys is answered with the structure error and not
    fetched. *)
Example scenarioB_trace :
  receive sampleEnv connected connected (ToolCallMessage scenarioB)
  = ([Emit (EvLog "server.toolCall"); Emit (EvLog "server.debug");
      Emit (EvLog "server.debug"); Emit (EvLog "server.debug");
      Emit (EvLog "server.error");
      WsSend 1 (ToolResponseMessage
                  [{| fr_id := "1"; fr_response := invalidStructureResponse |}]);
      Emit (EvLog "client.toolResponse");
      Emit (EvToolCall scenarioB)],
     Returned tt).
Proof. vm_compute. reflexivity. Qed.

(** An audio part and a text part: one audio event, then one content event. *)
Example scenarioC_trace :
  receive sampleEnv connected connected (modelTurnMessage false scenarioC)
  = ([Emit (EvAudio [Byte.x68; Byte.x69]); Emit (EvLog "server.audio");
      Emit (EvContent [TextPart "hi"]); Emit (EvLog "server.content")],
     Returned tt).
Proof. vm_compute. reflexivity. Qed.

(** A socket that opens: the setup frame is sent at once. *)
Example open_sends_setup :
  onOpen (fst (fst (connect unconnected (Some 1%positive) 7))) 7 "open"
  = ({| ws := Some 7; config := Some 1%positive; url := url unconnected |},
     Resolved true,
     [Emit (EvLog "client.open"); Emit EvOpen;
      WsSend 7 (SetupMessage 1%positive); Emit (EvLog "client.send")]).
Proof. reflexivity. Qed.

(** Without a socket the corrective send throws, and what would follow it is
    not done. *)
Example unconnected_send_throws :
  receive sampleEnv unconnected unconnected (modelTurnMessage false codeTurn)
  = ([Emit (EvLog "server.error")], Threw "WebSocket is not connected").
Proof. vm_compute. reflexivity. Qed.

(** The copy made by [getConfig] is shallow: the returned object refers to
    the same generation settings object as the stored config. *)
Example getConfig_shares_references :
  snd (getConfig connected sampleStore) !! fst (getConfig connected sampleStore)
  = sampleStore !! 1%positive.
Proof. vm_compute. reflexivity. Qed.

(** ** Computations and their traces *)

Lemma trace_bind {A B} (m : M A) (f : A -> M B) :
  trace (bind m f)
  = trace m ++ match completion m with
               | Returned a => trace (f a)
               | Threw _ => []
               end.
Proof.
  destruct m as [t [a | e]]; unfold bind, trace, completion; simpl.
  - destruct (f a); reflexivity.
  - symmetry; apply app_nil_r.
Qed.

Lemma completion_bind {A B} (m : M A) (f : A -> M B) :
  completion (bind m f)
  = match completion m with
    | Returned a => completion (f a)
    | Threw e => Threw e
    end.
Proof.
  destruct m as [t [a | e]]; unfold bind, completion; simpl; [destruct (f a) |]; reflexivity.
Qed.

Lemma M_eta {A} (m : M A) : m = (trace m, completion m).
Proof. destruct m; reflexivity. Qed.

Lemma bind_returned {A B} (t : list Effect) (a : A) (f : A -> M B) :
  bind (t, Returned a) f = (t ++ trace (f a), completion (f a)).
Proof. unfold bind; destruct (f a); reflexivity. Qed.

Lemma responseEntries_app (t1 t2 : list Effect) :
  responseEntries (t1 ++ t2) = responseEntries t1 ++ responseEntries t2.
Proof. unfold responseEntries, sent. rewrite !flat_map_app. reflexivity. Qed.

Lemma respondedIds_app (t1 t2 : list Effect) :
  respondedIds (t1 ++ t2) = respondedIds t1 ++ respondedIds t2.
Proof. unfold respondedIds. rewrite responseEntries_app. apply map_app. Qed.

Lemma sent_app (t1 t2 : list Effect) : sent (t1 ++ t2) = sent t1 ++ sent t2.
Proof. apply flat_map_app. Qed.

Lemma fetched_app (t1 t2 : list Effect) : fetched (t1 ++ t2) = fetched t1 ++ fetched t2.
Proof. apply flat_map_app. Qed.

Lemma publishedToolCalls_app (t1 t2 : list Effect) :
  publishedToolCalls (t1 ++ t2) = publishedToolCalls t1 ++ publishedToolCalls t2.
Proof. apply flat_map_app. Qed.

Lemma mediaEvents_app (t1 t2 : list Effect) :
  mediaEvents (t1 ++ t2) = mediaEvents t1 ++ mediaEvents t2.
Proof. apply flat_map_app. Qed.

(** ** The filter callback *)

(** The cases of the filter callback on a call [fc]: another function, then by
    the shape of the arguments, and for a mapping by the three tests made on
    it. *)
Ltac gate_cases fc :=
  destruct (String.eqb (fc_name fc) "pdf_lookup");
  [ destruct (fc_args fc) as [| ? | ? | ? | ? | kvs];
    [ | | | | |
      destruct (hasInvalidPattern (stringify (JObj kvs)));
      [ | destruct (truthy (get "pdfUri" kvs));
          [ destruct (Nat.eqb (length kvs) 1) | ] ] ]
  | ].

Section Connected.
Variables (c : Client) (w : WebSocket).
Hypothesis owned : ws c = Some w.

Lemma sendToolResponse_connected (frs : list FunctionResponse) :
  sendToolResponse c frs
  = ([WsSend w (ToolResponseMessage frs); Emit (EvLog "client.toolResponse")], Returned tt).
Proof. unfold sendToolResponse, _sendDirect. rewrite owned. reflexivity. Qed.

Lemma checkCall_connected (fc : FunctionCall) :
  checkCall c fc = (checkEffects w fc, Returned (validCall fc)).
Proof.
  unfold checkEffects, validCall, checkCall.
  fold (hasInvalidPattern (stringify (fc_args fc))).
  unfold sendToolResponse, _sendDirect, owning; cbn [ws]; rewrite owned.
  gate_cases fc; reflexivity.
Qed.

Lemma filterM_checkCall_connected (fcs : list FunctionCall) :
  filterM (checkCall c) fcs
  = (flat_map (checkEffects w) fcs, Returned (List.filter validCall fcs)).
Proof.
  induction fcs as [| fc fcs IH]; [reflexivity |].
  cbn [filterM flat_map List.filter].
  rewrite checkCall_connected, bind_returned, IH.
  unfold bind, ret, trace, completion; cbn [fst snd].
  rewrite app_nil_r. destruct (validCall fc); reflexivity.
Qed.
End Connected.

Lemma checkEffects_cases (w : WebSocket) (fc : FunctionCall) :
  responseEntries (checkEffects w fc) = correctionEntries fc
  /\ sent (checkEffects w fc) = map (fun fr => ToolResponseMessage [fr]) (correctionEntries fc)
  /\ fetched (checkEffects w fc) = []
  /\ publishedToolCalls (checkEffects w fc) = [].
Proof.
  unfold checkEffects, correctionEntries, correction, checkCall.
  fold (hasInvalidPattern (stringify (fc_args fc))).
  unfold sendToolResponse, _sendDirect, owning; cbn [ws].
  gate_cases fc; repeat split; reflexivity.
Qed.

Lemma validCall_correction (fc : FunctionCall) :
  validCall fc = true -> correction fc = None.
Proof.
  unfold validCall, correction.
  gate_cases fc; (discriminate || reflexivity).
Qed.

Lemma validCall_pdfUri (fc : FunctionCall) :
  validCall fc = true -> exists uri, pdfUri fc = Some uri /\ truthy (Some uri) = true.
Proof.
  unfold validCall, pdfUri.
  destruct (String.eqb (fc_name fc) "pdf_lookup"); [| discriminate].
  destruct (fc_args fc) as [| | | | |kvs]; try discriminate.
  destruct (hasInvalidPattern (stringify (JObj kvs))); [discriminate |].
  destruct (get "pdfUri" kvs) as [uri |] eqn:Huri; [| discriminate].
  destruct (truthy (Some uri)) eqn:Ht; [| discriminate].
  intros _. exists uri. split; [reflexivity | exact Ht].
Qed.

(** ** Fetching *)

Lemma fetchPdfText_trace (env : Env) (c : Client) (uri : json) :
  trace (fetchPdfText env c uri)
  = [Fetch ("https://generativelanguage.googleapis.com/v1beta/files/"
            +:+ toString uri +:+ "/content") (apiKey c)].
Proof.
  unfold fetchPdfText, apiKey. rewrite trace_bind. cbn [tell trace completion fst snd].
  destruct (http env _) as [| ok st body]; [reflexivity |].
  destruct ok; [| reflexivity].
  destruct body as [[| | | | |kvs] |]; try reflexivity.
  destruct (get "text" kvs); reflexivity.
Qed.

Lemma lookupCall_trace (env : Env) (c : Client) (fc : FunctionCall) :
  validCall fc = true ->
  trace (lookupCall env c fc) = [Fetch (fetchAddress fc) (apiKey c)].
Proof.
  intros Hv. destruct (validCall_pdfUri fc Hv) as (uri & Huri & Ht).
  unfold lookupCall, fetchAddress. rewrite Huri, Ht. cbn [negb default].
  rewrite trace_bind, fetchPdfText_trace.
  destruct (completion (fetchPdfText env c uri)); reflexivity.
Qed.

Lemma lookupCall_returned (env : Env) (c : Client) (fc : FunctionCall) (fr : FunctionResponse) :
  completion (lookupCall env c fc) = Returned fr ->
  fr_id fr = fc_id fc /\ hasText (fr_response fr) = true.
Proof.
  unfold lookupCall.
  destruct (pdfUri fc) as [uri |]; [| discriminate].
  destruct (truthy (Some uri)); [| discriminate].
  cbn [negb]. rewrite completion_bind.
  destruct (completion (fetchPdfText env c uri)) as [t | e]; [| discriminate].
  cbn. intros [= <-]. split; reflexivity.
Qed.

Lemma lookupCall_effects (env : Env) (c : Client) (fc : FunctionCall) :
  sent (trace (lookupCall env c fc)) = []
  /\ publishedToolCalls (trace (lookupCall env c fc)) = [].
Proof.
  unfold lookupCall.
  destruct (pdfUri fc) as [uri |]; [| split; reflexivity].
  destruct (truthy (Some uri)); [| split; reflexivity].
  cbn [negb]. rewrite trace_bind, fetchPdfText_trace.
  destruct (completion (fetchPdfText env c uri)); split; reflexivity.
Qed.

(** ** [Promise.all] *)

Lemma promiseAll_trace {A} (ms : list (M A)) :
  trace (promiseAll ms) = concat (map trace ms).
Proof.
  induction ms as [| [t r] ms IH]; [reflexivity |].
  cbn [promiseAll map concat]. rewrite <- IH.
  destruct (promiseAll ms); reflexivity.
Qed.

Lemma promiseAll_returned {A} (ms : list (M A)) (l : list A) :
  completion (promiseAll ms) = Returned l ->
  Forall2 (fun m a => completion m = Returned a) ms l.
Proof.
  revert l. induction ms as [| [t r] ms IH]; intros l.
  - cbn. intros [= <-]. constructor.
  - cbn [promiseAll]. destruct (promiseAll ms) as [t2 r2].
    unfold completion in *; cbn [snd] in *.
    destruct r as [a | e]; [| discriminate].
    destruct r2 as [l2 | e2]; [| discriminate].
    intros [= <-]. constructor; [reflexivity | apply IH; reflexivity].
Qed.

Lemma promiseAll_threw {A} (ms : list (M A)) (m : M A) (e : string) :
  In m ms -> completion m = Threw e ->
  exists e', completion (promiseAll ms) = Threw e'.
Proof.
  induction ms as [| [t r] ms IH]; [intros [] |].
  intros [<- | Hin] He; cbn [promiseAll]; destruct (promiseAll ms) as [t2 r2].
  - unfold completion in *; cbn [snd] in *. subst r. eexists; reflexivity.
  - destruct (IH Hin He) as [e' He'].
    unfold completion in *; cbn [snd] in *. subst r2.
    destruct r; eexists; reflexivity.
Qed.

(** ** Executing the queued calls *)

Lemma executeCalls_connected (env : Env) (c c' : Client) (w' : WebSocket)
      (calls : list FunctionCall) :
  ws c' = Some w' ->
  executeCalls env c c' calls
  = (match calls with
     | [] => []
     | _ => concat (map (fun fc => trace (lookupCall env c fc)) calls)
            ++ [WsSend w' (ToolResponseMessage (batchAnswer env c calls));
                Emit (EvLog "client.toolResponse")]
     end, Returned tt).
Proof.
  intros Hw. unfold executeCalls, batchAnswer.
  destruct calls as [| fc rest]; [reflexivity |].
  cbn [length Nat.ltb Nat.leb].
  set (calls := fc :: rest).
  rewrite <- (map_map (lookupCall env c) trace), <- promiseAll_trace.
  rewrite (M_eta (promiseAll (map (lookupCall env c) calls))) at 1.
  destruct (completion (promiseAll (map (lookupCall env c) calls))) as [frs | e].
  - rewrite bind_returned, (sendToolResponse_connected c' w' Hw). reflexivity.
  - unfold bind, try_catch. rewrite (sendToolResponse_connected c' w' Hw). reflexivity.
Qed.

Lemma lookups_fetched (env : Env) (c : Client) (calls : list FunctionCall) :
  Forall (fun fc => validCall fc = true) calls ->
  fetched (concat (map (fun fc => trace (lookupCall env c fc)) calls)) = map fetchAddress calls.
Proof.
  induction 1 as [| fc rest Hv _ IH]; [reflexivity |].
  cbn [map concat]. rewrite fetched_app, IH, (lookupCall_trace env c fc Hv). reflexivity.
Qed.

Lemma lookups_silent (env : Env) (c : Client) (calls : list FunctionCall) :
  sent (concat (map (fun fc => trace (lookupCall env c fc)) calls)) = []
  /\ publishedToolCalls (concat (map (fun fc => trace (lookupCall env c fc)) calls)) = [].
Proof.
  induction calls as [| fc rest [IHs IHp]]; [split; reflexivity |].
  cbn [map concat]. rewrite sent_app, publishedToolCalls_app, IHs, IHp.
  destruct (lookupCall_effects env c fc) as [-> ->]. split; reflexivity.
Qed.

Lemma batchAnswer_ids (env : Env) (c : Client) (calls : list FunctionCall) :
  map fr_id (batchAnswer env c calls) = map fc_id calls.
Proof.
  unfold batchAnswer.
  destruct (completion (promiseAll (map (lookupCall env c) calls))) as [frs | e] eqn:Hc.
  - apply promiseAll_returned in Hc.
    revert frs Hc. induction calls as [| fc rest IH]; intros frs Hc.
    + inversion Hc. reflexivity.
    + cbn [map] in Hc. inversion Hc as [| m fr ms frs' Hfr Hrest]; subst.
      cbn [map]. f_equal; [apply (lookupCall_returned env c fc fr Hfr) | apply IH, Hrest].
  - rewrite map_map. reflexivity.
Qed.

Lemma batchAnswer_failed (env : Env) (c : Client) (calls : list FunctionCall)
      (fc : FunctionCall) (e : string) :
  In fc calls -> completion (lookupCall env c fc) = Threw e ->
  batchAnswer env c calls = map fetchFailedEntry calls.
Proof.
  intros Hin He. unfold batchAnswer.
  destruct (promiseAll_threw (map (lookupCall env c) calls) (lookupCall env c fc) e)
    as [e' ->]; [apply in_map, Hin | exact He | reflexivity].
Qed.

Lemma pdfLookupCalls_valid (tc : ToolCall) :
  Forall (fun fc => validCall fc = true) (pdfLookupCalls tc).
Proof. apply List.Forall_forall. intros fc Hin. apply filter_In in Hin. apply Hin. Qed.

(** What handling the queued calls does to the outside, under a connected
    client. *)
Lemma executeCalls_effects (env : Env) (c c' : Client) (w' : WebSocket)
      (calls : list FunctionCall) :
  ws c' = Some w' ->
  Forall (fun fc => validCall fc = true) calls ->
  let t := trace (executeCalls env c c' calls) in
  fetched t = map fetchAddress calls
  /\ publishedToolCalls t = []
  /\ sent t = match calls with
              | [] => []
              | _ => [ToolResponseMessage (batchAnswer env c calls)]
              end.
Proof.
  intros Hw Hv t. subst t. rewrite (executeCalls_connected env c c' w' calls Hw).
  cbn [trace fst]. destruct calls as [| fc rest]; [repeat split; reflexivity |].
  rewrite fetched_app, publishedToolCalls_app, sent_app, (lookups_fetched env c _ Hv).
  destruct (lookups_silent env c (fc :: rest)) as [-> ->].
  cbn [fetched sent publishedToolCalls flat_map app]. rewrite app_nil_r.
  repeat split; reflexivity.
Qed.

(** ** A tool-call frame under a connected client *)

Lemma checks_effects (w : WebSocket) (fcs : list FunctionCall) :
  sent (flat_map (checkEffects w) fcs)
  = map (fun fr => ToolResponseMessage [fr]) (flat_map correctionEntries fcs)
  /\ fetched (flat_map (checkEffects w) fcs) = []
  /\ publishedToolCalls (flat_map (checkEffects w) fcs) = [].
Proof.
  induction fcs as [| fc rest (IHs & IHf & IHp)]; [repeat split; reflexivity |].
  cbn [flat_map]. rewrite sent_app, fetched_app, publishedToolCalls_app, IHs, IHf, IHp.
  destruct (checkEffects_cases w fc) as (_ & -> & -> & ->).
  rewrite map_app. repeat split; reflexivity.
Qed.

Lemma receiveToolCall_connected (env : Env) (c c' : Client) (w w' : WebSocket) (tc : ToolCall) :
  ws c = Some w -> ws c' = Some w' ->
  hasCodeSyntax (stringify (json_of_ToolCallMessage tc)) = false ->
  receiveToolCall env c c' tc
  = ([Emit (EvLog "server.toolCall"); Emit (EvLog "server.debug")]
     ++ flat_map (checkEffects w) (functionCalls tc)
     ++ trace (executeCalls env c c' (pdfLookupCalls tc))
     ++ [Emit (EvToolCall tc)],
     Returned tt).
Proof.
  intros Hw Hw' Hclean. unfold receiveToolCall. rewrite Hclean.
  rewrite (filterM_checkCall_connected c w Hw).
  cbv [bind log emit tell]. fold (pdfLookupCalls tc).
  rewrite !(executeCalls_connected env c c' w' (pdfLookupCalls tc) Hw').
  reflexivity.
Qed.

Lemma receiveToolCall_rejected (env : Env) (c c' : Client) (w : WebSocket) (tc : ToolCall) :
  ws c = Some w ->
  hasCodeSyntax (stringify (json_of_ToolCallMessage tc)) = true ->
  receiveToolCall env c c' tc
  = ([Emit (EvLog "server.toolCall"); Emit (EvLog "server.debug");
      WsSend w (ToolResponseMessage
                  [{| fr_id := firstIdOrError tc; fr_response := codeSyntaxResponse |}]);
      Emit (EvLog "client.toolResponse")],
     Returned tt).
Proof.
  intros Hw Hmarked. unfold receiveToolCall. rewrite Hmarked.
  rewrite (sendToolResponse_connected c w Hw). reflexivity.
Qed.

(** ** A tool-call frame under any client *)

Lemma sendToolResponse_unconnected (c : Client) (frs : list FunctionResponse) :
  ws c = None -> sendToolResponse c frs = ([], Threw "WebSocket is not connected").
Proof. intros Hw. unfold sendToolResponse, _sendDirect. rewrite Hw. reflexivity. Qed.

Lemma checkCall_unconnected (c : Client) (fc : FunctionCall) :
  ws c = None ->
  sent (trace (checkCall c fc)) = []
  /\ forall b, completion (checkCall c fc) = Returned b -> b = validCall fc.
Proof.
  intros Hw. unfold validCall, checkCall.
  fold (hasInvalidPattern (stringify (fc_args fc))).
  rewrite !(sendToolResponse_unconnected c _ Hw).
  gate_cases fc;
    (split; [reflexivity | intros r Hr; (discriminate Hr || (injection Hr as <-; reflexivity))]).
Qed.

Lemma checkCall_returned (c : Client) (fc : FunctionCall) (b : bool) :
  completion (checkCall c fc) = Returned b -> b = validCall fc.
Proof.
  destruct (ws c) as [w |] eqn:Hw.
  - rewrite (checkCall_connected c w Hw). intros [= <-]. reflexivity.
  - apply (checkCall_unconnected c fc Hw).
Qed.

Lemma filterM_checkCall_returned (c : Client) (fcs l : list FunctionCall) :
  completion (filterM (checkCall c) fcs) = Returned l -> l = List.filter validCall fcs.
Proof.
  revert l. induction fcs as [| fc rest IH]; intros l.
  - cbn. intros [= <-]. reflexivity.
  - cbn [filterM List.filter]. rewrite completion_bind.
    destruct (completion (checkCall c fc)) as [b | e] eqn:Hb; [| discriminate].
    apply checkCall_returned in Hb. subst b.
    rewrite completion_bind.
    destruct (completion (filterM (checkCall c) rest)) as [ys | e]; [| discriminate].
    cbn. intros [= <-]. rewrite (IH ys eq_refl). reflexivity.
Qed.

Lemma responseEntries_unsent (t : list Effect) : sent t = [] -> responseEntries t = [].
Proof. unfold responseEntries. intros ->. reflexivity. Qed.

Lemma entries_of_singletons (frs : list FunctionResponse) :
  flat_map (fun m => match m with
                     | ToolResponseMessage l => l
                     | _ => []
                     end)
    (map (fun fr => ToolResponseMessage [fr]) frs) = frs.
Proof.
  induction frs as [| fr rest IH]; [reflexivity |].
  cbn [map flat_map app]. rewrite IH. reflexivity.
Qed.

Lemma responseEntries_singletons (frs : list FunctionResponse) (t : list Effect) :
  sent t = map (fun fr => ToolResponseMessage [fr]) frs -> responseEntries t = frs.
Proof. unfold responseEntries. intros ->. apply entries_of_singletons. Qed.

Lemma correctionEntries_id (fc : FunctionCall) (fr : FunctionResponse) :
  In fr (correctionEntries fc) -> fr_id fr = fc_id fc /\ hasText (fr_response fr) = false.
Proof.
  unfold correctionEntries, correction.
  destruct (String.eqb (fc_name fc) "pdf_lookup"); [| intros []].
  destruct (fc_args fc) as [| | | | |kvs]; try (intros []).
  destruct (hasInvalidPattern (stringify (JObj kvs))).
  - intros [<- | []]. split; reflexivity.
  - destruct (negb (truthy (get "pdfUri" kvs)) || negb (Nat.eqb (length kvs) 1)); [| intros []].
    intros [<- | []]. split; reflexivity.
Qed.

Lemma filterM_checkCall_entries (c : Client) (fcs : list FunctionCall) (fr : FunctionResponse) :
  In fr (responseEntries (trace (filterM (checkCall c) fcs))) ->
  In (fr_id fr) (map fc_id fcs).
Proof.
  destruct (ws c) as [w |] eqn:Hw.
  - rewrite (filterM_checkCall_connected c w Hw). cbn [trace fst].
    destruct (checks_effects w fcs) as (Hs & _ & _).
    rewrite (responseEntries_singletons _ _ Hs).
    intros Hin. apply in_flat_map in Hin. destruct Hin as (fc & Hfc & Hfr).
    apply correctionEntries_id in Hfr. destruct Hfr as [-> _].
    apply in_map, Hfc.
  - assert (Hnone : sent (trace (filterM (checkCall c) fcs)) = []).
    { induction fcs as [| fc rest IH]; [reflexivity |].
      cbn [filterM]. rewrite trace_bind, sent_app.
      destruct (checkCall_unconnected c fc Hw) as [-> _].
      destruct (completion (checkCall c fc)); [| reflexivity].
      rewrite trace_bind, sent_app, IH.
      destruct (completion (filterM (checkCall c) rest)); reflexivity. }
    rewrite (responseEntries_unsent _ Hnone). intros [].
Qed.

Lemma executeCalls_entries (env : Env) (c c' : Client) (calls : list FunctionCall)
      (fr : FunctionResponse) :
  In fr (responseEntries (trace (executeCalls env c c' calls))) ->
  In (fr_id fr) (map fc_id calls).
Proof.
  destruct (ws c') as [w' |] eqn:Hw.
  - rewrite (executeCalls_connected env c c' w' calls Hw). cbn [trace fst].
    destruct calls as [| fc rest]; [intros [] |].
    rewrite responseEntries_app.
    rewrite (responseEntries_unsent _ (proj1 (lookups_silent env c (fc :: rest)))).
    cbn [responseEntries sent flat_map app]. rewrite !app_nil_r.
    intros Hin. apply (in_map fr_id) in Hin.
    rewrite batchAnswer_ids in Hin. exact Hin.
  - unfold executeCalls. destruct (Nat.ltb 0 (length calls)); [| intros []].
    assert (Hnone : sent (trace (promiseAll (map (lookupCall env c) calls))) = []).
    { rewrite promiseAll_trace, map_map. apply (lookups_silent env c calls). }
    rewrite (M_eta (promiseAll (map (lookupCall env c) calls))).
    destruct (completion (promiseAll (map (lookupCall env c) calls)));
      unfold bind, try_catch; rewrite !(sendToolResponse_unconnected c' _ Hw);
      cbn [trace fst]; rewrite ?app_nil_r, (responseEntries_unsent _ Hnone); intros [].
Qed.

(** ** The demultiplexer *)

Lemma Part_eqb_eq (p q : Part) : Part_eqb p q = true <-> p = q.
Proof.
  destruct p, q; cbn [Part_eqb]; try (split; [discriminate | congruence]).
  - rewrite String.eqb_eq. split; congruence.
  - rewrite andb_true_iff, !String.eqb_eq. split; [intros [-> ->]; reflexivity | intros [= -> ->]; auto].
  - rewrite andb_true_iff, !String.eqb_eq. split; [intros [-> ->]; reflexivity | intros [= -> ->]; auto].
Qed.

(** Removing the audio parts by [difference] keeps exactly the parts that are
    not audio: a part equal to an audio part is an audio part. *)
Lemma difference_audio (ps : list Part) :
  difference ps (List.filter isAudioPart ps) = List.filter (fun p => negb (isAudioPart p)) ps.
Proof.
  unfold difference. apply filter_ext_in. intros p Hp. f_equal.
  destruct (isAudioPart p) eqn:Ha.
  - apply existsb_exists. exists p. split; [apply filter_In; auto | apply Part_eqb_eq; reflexivity].
  - destruct (existsb (Part_eqb p) (List.filter isAudioPart ps)) eqn:He; [| reflexivity].
    apply existsb_exists in He. destruct He as (q & Hq & Heq).
    apply Part_eqb_eq in Heq. subst q. apply filter_In in Hq. destruct Hq as [_ Hq].
    congruence.
Qed.

Lemma forEach_emitAudio (env : Env) (ps : list Part) :
  completion (forEach (emitAudio env) (map inlineData_data ps)) = Returned tt
  /\ mediaEvents (trace (forEach (emitAudio env) (map inlineData_data ps)))
     = map (fun s => EvAudio (base64ToArrayBuffer env s))
         (List.filter (fun s => negb (String.eqb s EmptyString))
            (map payload ps))
  /\ sent (trace (forEach (emitAudio env) (map inlineData_data ps))) = [].
Proof.
  induction ps as [| p rest (IHc & IHm & IHs)]; [repeat split; reflexivity |].
  cbn [map forEach List.filter].
  rewrite completion_bind, trace_bind, mediaEvents_app, sent_app.
  assert (Hp : completion (emitAudio env (inlineData_data p)) = Returned tt).
  { unfold emitAudio. destruct (inlineData_data p) as [s |]; [| reflexivity].
    destruct (String.eqb s EmptyString); reflexivity. }
  rewrite Hp, IHc, IHm, IHs. split; [reflexivity |].
  unfold emitAudio, payload. destruct (inlineData_data p) as [s |].
  - destruct (String.eqb s EmptyString); split; reflexivity.
  - split; reflexivity.
Qed.

Lemma receiveModelTurn_clean (env : Env) (c : Client) (ps : list Part) :
  hasCodeSyntax (stringify (json_of_parts ps)) = false ->
  completion (receiveModelTurn env c ps) = Returned tt
  /\ mediaEvents (trace (receiveModelTurn env c ps))
     = map (fun s => EvAudio (base64ToArrayBuffer env s)) (audioPayloads ps)
       ++ match List.filter (fun p => negb (isAudioPart p)) ps with
          | [] => []
          | others => [EvContent others]
          end
  /\ sent (trace (receiveModelTurn env c ps)) = [].
Proof.
  intros Hclean. unfold receiveModelTurn, audioPayloads. rewrite Hclean.
  rewrite difference_audio.
  destruct (forEach_emitAudio env (List.filter isAudioPart ps)) as (Hc & Hm & Hs).
  rewrite completion_bind, trace_bind, mediaEvents_app, sent_app, Hc, Hm, Hs.
  destruct (List.filter (fun p => negb (isAudioPart p)) ps) as [| o others];
    repeat split; reflexivity.
Qed.

Lemma receiveModelTurn_marked (env : Env) (c : Client) (w : WebSocket) (ps : list Part) :
  ws c = Some w ->
  hasCodeSyntax (stringify (json_of_parts ps)) = true ->
  receiveModelTurn env c ps
  = ([Emit (EvLog "server.error");
      WsSend w (ClientContentMessage
                  [{| role := "user"; parts := [errorMessage (url c)] |}] true);
      Emit (EvLog "client.send");
      Emit (EvContent [errorMessage (url c)])],
     Returned tt).
Proof.
  intros Hw Hmarked. unfold receiveModelTurn, send, _sendDirect.
  rewrite Hmarked, Hw. reflexivity.
Qed.

Lemma receive_modelTurn (env : Env) (c c' : Client) (tc : bool) (ps : list Part) :
  receive env c c' (modelTurnMessage tc ps)
  = (turnCompleteEffects tc ++ trace (receiveModelTurn env c ps),
     completion (receiveModelTurn env c ps)).
Proof.
  unfold receive, modelTurnMessage, isInterrupted, isTurnComplete, turnCompleteEffects.
  cbn [interrupted turnComplete modelTurn].
  destruct tc; cbv [bind log emit tell ret];
    destruct (receiveModelTurn env c ps); reflexivity.
Qed.

(** ** [disconnect] *)

Lemma disconnect_other (c : Client) (w : WebSocket) :
  ws c <> Some w -> disconnect c (Some w) = (c, false, []).
Proof.
  intros Hne. unfold disconnect. destruct (ws c) as [owned |]; [| reflexivity].
  destruct (Nat.eqb owned w) eqn:He; [| reflexivity].
  apply Nat.eqb_eq in He. congruence.
Qed.

Lemma disconnect_closes (c c1 : Client) (arg : option WebSocket) (t : list Effect) :
  disconnect c arg = (c1, true, t) ->
  (arg = None \/ arg = ws c)
  /\ exists owned, ws c = Some owned /\ ws c1 = None /\ closed t = [owned].
Proof.
  unfold disconnect. destruct (ws c) as [owned |]; [| discriminate].
  destruct arg as [given |].
  - destruct (Nat.eqb owned given) eqn:He; [| discriminate].
    apply Nat.eqb_eq in He. subst given. intros [= <- <-].
    split; [right; reflexivity | exists owned; repeat split].
  - intros [= <- <-]. split; [left; reflexivity | exists owned; repeat split].
Qed.

(** ** [getConfig] *)

Lemma mutate_other (l a : loc) (m : Mutation) (h : gmap loc (gmap string value)) :
  a <> l -> mutate l m h !! a = h !! a.
Proof.
  intros Hne. unfold mutate. destruct (h !! l); [| reflexivity].
  apply lookup_insert_ne. congruence.
Qed.

Lemma mutateAll_other (l a : loc) (ms : list Mutation) (h : gmap loc (gmap string value)) :
  a <> l -> mutateAll l ms h !! a = h !! a.
Proof.
  intros Hne. unfold mutateAll. revert h.
  induction ms as [| m rest IH]; intros h; [reflexivity |].
  cbn [fold_left]. rewrite IH. apply mutate_other, Hne.
Qed.

Lemma getConfig_fresh (c : Client) (h : gmap loc (gmap string value)) :
  h !! fst (getConfig c h) = None.
Proof.
  unfold getConfig; cbn [fst]. apply not_elem_of_dom, is_fresh.
Qed.

(** What a frame without code syntax does to the outside, under a connected
    client. *)
Lemma receiveToolCall_clean_effects (env : Env) (c c' : Client) (w w' : WebSocket)
      (tc : ToolCall) :
  ws c = Some w -> ws c' = Some w' ->
  hasCodeSyntax (stringify (json_of_ToolCallMessage tc)) = false ->
  let t := trace (receiveToolCall env c c' tc) in
  sent t = map (fun fr => ToolResponseMessage [fr]) (flat_map correctionEntries (functionCalls tc))
           ++ match pdfLookupCalls tc with
              | [] => []
              | _ => [ToolResponseMessage (batchAnswer env c (pdfLookupCalls tc))]
              end
  /\ fetched t = map fetchAddress (pdfLookupCalls tc)
  /\ publishedToolCalls t = [tc].
Proof.
  intros Hw Hw' Hclean t. subst t.
  rewrite (receiveToolCall_connected env c c' w w' tc Hw Hw' Hclean). cbn [trace fst].
  destruct (checks_effects w (functionCalls tc)) as (Hs & Hf & Hp).
  destruct (executeCalls_effects env c c' w' (pdfLookupCalls tc) Hw' (pdfLookupCalls_valid tc))
    as (Hf' & Hp' & Hs').
  rewrite !sent_app, !fetched_app, !publishedToolCalls_app, Hs, Hf, Hp, Hs', Hf', Hp'.
  cbn [sent fetched publishedToolCalls flat_map app]. rewrite !app_nil_r.
  repeat split; reflexivity.
Qed.

(** ** Strings *)

Lemma append_cons (ch : ascii) (a b : string) : String ch a +:+ b = String ch (a +:+ b).
Proof. reflexivity. Qed.

Lemma append_nil_r (s : string) : s +:+ EmptyString = s.
Proof. induction s as [| ch s IH]; [reflexivity |]. rewrite append_cons, IH. reflexivity. Qed.

Lemma append_assoc (a b c : string) : (a +:+ b) +:+ c = a +:+ (b +:+ c).
Proof.
  induction a as [| ch a IH]; [reflexivity |]. rewrite !append_cons, IH. reflexivity.
Qed.

Lemma prefix_refl_append (p s : string) : String.prefix p (p +:+ s) = true.
Proof.
  induction p as [| ch p IH]; [destruct s; reflexivity |].
  rewrite append_cons. cbn [String.prefix]. destruct (ascii_dec ch ch) as [_ | Hne]; [exact IH | congruence].
Qed.

Lemma includes_append (x y p : string) :
  String.prefix p y = true -> includes (x +:+ y) p = true.
Proof.
  intros Hp. induction x as [| ch x IH].
  - change (EmptyString +:+ y) with y. destruct y; cbn [includes]; rewrite Hp; reflexivity.
  - rewrite append_cons. cbn [includes]. rewrite IH. apply orb_true_r.
Qed.

Lemma prefix_append (p x z : string) :
  String.prefix p x = true -> String.prefix p (x +:+ z) = true.
Proof.
  revert x. induction p as [| a p IH]; intros x Hp; [destruct (x +:+ z); reflexivity |].
  destruct x as [| b x]; [discriminate Hp |].
  rewrite append_cons. cbn [String.prefix] in *.
  destruct (ascii_dec a b); [apply IH, Hp | discriminate Hp].
Qed.

Lemma includes_append_l (x z p : string) :
  includes x p = true -> includes (x +:+ z) p = true.
Proof.
  induction x as [| ch x IH]; intros Hx.
  - cbn [includes] in Hx. rewrite orb_false_r in Hx.
    apply (includes_append EmptyString z p).
    destruct p; [destruct z; reflexivity | discriminate Hx].
  - rewrite append_cons. cbn [includes] in *.
    apply orb_true_iff in Hx. destruct Hx as [Hx | Hx].
    + rewrite <- append_cons, (prefix_append p _ z Hx). reflexivity.
    + rewrite (IH Hx). apply orb_true_r.
Qed.

Lemma includes_append_r (x y p : string) :
  includes y p = true -> includes (x +:+ y) p = true.
Proof.
  intros Hy. induction x as [| ch x IH]; [exact Hy |].
  rewrite append_cons. cbn [includes]. rewrite IH. apply orb_true_r.
Qed.

Lemma includes_here (s p : string) : String.prefix p s = true -> includes s p = true.
Proof. intros Hp. destruct s; cbn [includes]; rewrite Hp; reflexivity. Qed.

Lemma prefix_append_same (u p s : string) :
  String.prefix p s = true -> String.prefix (u +:+ p) (u +:+ s) = true.
Proof.
  intros Hp. induction u as [| ch u IH]; [exact Hp |].
  rewrite !append_cons. cbn [String.prefix].
  destruct (ascii_dec ch ch) as [_ | Hne]; [exact IH | congruence].
Qed.

(** Finds a pattern made of the same pieces as the string it is looked for
    in. *)
Ltac find_member :=
  first [ solve [ apply includes_here; repeat apply prefix_append_same;
                  apply prefix_refl_append ]
        | apply includes_append_r; find_member ].

(** ** What the corrective payloads say *)

Lemma errorMessage_says (address : string) :
  exists text,
    errorMessage address = TextPart text
    /\ includes text "ERROR: Invalid syntax detected" = true
    /\ includes text (member "name" "pdf_lookup") = true
    /\ includes text (member "pdfUri" (uriHint address)) = true.
Proof.
  unfold errorMessage. eexists. split; [reflexivity |].
  generalize (uriHint address). intros u. unfold member.
  split; [apply includes_append_l; vm_compute; reflexivity |].
  split; find_member.
Qed.

Lemma fetchFailedResponse_says :
  exists msg,
    errorText fetchFailedResponse = Some msg
    /\ startsWith msg "Failed to fetch PDF content." = true
    /\ includes msg (member "name" "pdf_lookup") = true
    /\ exampleCall fetchFailedResponse = Some (example "your_uri_here").
Proof. eexists. repeat split; vm_compute; reflexivity. Qed.

(** * The claims *)

(** ** C1: audio and content events of a model turn *)

(** C1, as stated, fails on two turns.  A turn whose only part is an audio
    part with an empty payload has N = 1 but no audio event is emitted; a turn
    whose only part is the text [print(1)] has M = 1, but the content event
    carries the corrective text instead of that part. *)
Lemma demux_as_stated_counterexample :
  mediaEvents (trace (receive sampleEnv connected connected (modelTurnMessage false silentAudio)))
    <> demuxAsStated sampleEnv silentAudio
  /\ mediaEvents (trace (receive sampleEnv connected connected (modelTurnMessage false codeTurn)))
       <> demuxAsStated sampleEnv codeTurn.
Proof. split; intros H; vm_compute in H; discriminate H. Qed.

(** C1, amended: for a model turn (not an interruption notice) whose
    serialized parts carry no code-syntax marker, handling the frame returns
    normally and its audio and content events are: one audio event with the
    decoded bytes for each audio part whose payload is not empty, in the order
    of the parts, followed by one content event with the non-audio parts in
    their order when there is at least one, and by none otherwise.  When no
    audio part has an empty payload these are exactly N audio events. *)
Theorem demux_clean_turn (env : Env) (c c' : Client) (tc : bool) (ps : list Part) :
  hasCodeSyntax (stringify (json_of_parts ps)) = false ->
  let r := receive env c c' (modelTurnMessage tc ps) in
  completion r = Returned tt
  /\ mediaEvents (trace r)
     = map (fun s => EvAudio (base64ToArrayBuffer env s)) (audioPayloads ps)
       ++ match List.filter (fun p => negb (isAudioPart p)) ps with
          | [] => []
          | others => [EvContent others]
          end
  /\ (forallb (fun p => negb (String.eqb (payload p) EmptyString)) (List.filter isAudioPart ps)
      = true ->
      mediaEvents (trace r) = demuxAsStated env ps
      /\ length (audioPayloads ps) = length (List.filter isAudioPart ps)).
Proof.
  intros Hclean r. subst r. rewrite receive_modelTurn. cbn [trace completion fst snd].
  destruct (receiveModelTurn_clean env c ps Hclean) as (Hc & Hm & _).
  assert (Hme : mediaEvents (turnCompleteEffects tc ++ trace (receiveModelTurn env c ps))
                = mediaEvents (trace (receiveModelTurn env c ps))).
  { rewrite mediaEvents_app. destruct tc; reflexivity. }
  rewrite Hme, Hm. split; [exact Hc |]. split; [reflexivity |].
  intros Hall. unfold demuxAsStated, audioPayloads.
  assert (Hkeep : List.filter (fun s => negb (String.eqb s EmptyString))
                    (map payload (List.filter isAudioPart ps))
                  = map payload (List.filter isAudioPart ps)).
  { induction (List.filter isAudioPart ps) as [| p rest IH]; [reflexivity |].
    cbn [forallb] in Hall. apply andb_true_iff in Hall. destruct Hall as [Hp Hrest].
    cbn [map List.filter]. rewrite Hp, (IH Hrest). reflexivity. }
  rewrite Hkeep, map_map, length_map. split; reflexivity.
Qed.

Lemma demux_clean_turn_witness :
  hasCodeSyntax (stringify (json_of_parts scenarioC)) = false
  /\ mediaEvents (trace (receive sampleEnv connected connected (modelTurnMessage false scenarioC)))
     = [EvAudio [Byte.x68; Byte.x69]; EvContent [TextPart "hi"]].
Proof.
  split; [vm_compute; reflexivity |].
  refine (proj1 (proj2 (demux_clean_turn sampleEnv connected connected false scenarioC _))).
  vm_compute; reflexivity.
Defined.

(** ** C7: a model turn that carries code syntax *)

(** C7, as stated, fails when the client no longer owns a socket at the time
    the turn is handled ([receive] first awaits the decoding of the frame, and
    a [disconnect] may come in between): [send] throws before anything is put
    on a socket, so no corrective message is sent, and the content event that
    would follow is not emitted either. *)
Lemma marked_turn_counterexample :
  hasCodeSyntax (stringify (json_of_parts codeTurn)) = true
  /\ let r := receive sampleEnv (released connected) (released connected)
                (modelTurnMessage false codeTurn) in
     sent (trace r) = []
     /\ mediaEvents (trace r) = []
     /\ completion r = Threw "WebSocket is not connected".
Proof. repeat split; vm_compute; reflexivity. Qed.

(** C7, amended: for a model turn (not an interruption notice) whose
    serialized parts contain a code-syntax marker, handled by a client that
    owns a socket, no audio event and no content event for the turn's own
    parts is emitted; exactly one message is sent, the corrective text as a
    user turn, and the same corrective text is emitted once as a content
    event.  The corrective text is an error notice that shows the one allowed
    call: the name [pdf_lookup] and the single parameter [pdfUri], with the
    file named in the client's address (or a placeholder) as its value. *)
Theorem marked_turn_corrected (env : Env) (c c' : Client) (w : WebSocket)
        (tc : bool) (ps : list Part) :
  ws c = Some w ->
  hasCodeSyntax (stringify (json_of_parts ps)) = true ->
  let r := receive env c c' (modelTurnMessage tc ps) in
  completion r = Returned tt
  /\ mediaEvents (trace r) = [EvContent [errorMessage (url c)]]
  /\ sent (trace r)
     = [ClientContentMessage [{| role := "user"; parts := [errorMessage (url c)] |}] true]
  /\ trace r
     = turnCompleteEffects tc
       ++ [Emit (EvLog "server.error");
           WsSend w (ClientContentMessage
                       [{| role := "user"; parts := [errorMessage (url c)] |}] true);
           Emit (EvLog "client.send");
           Emit (EvContent [errorMessage (url c)])]
  /\ exists text,
       errorMessage (url c) = TextPart text
       /\ includes text "ERROR: Invalid syntax detected" = true
       /\ includes text (member "name" "pdf_lookup") = true
       /\ includes text (member "pdfUri" (uriHint (url c))) = true.
Proof.
  intros Hw Hmarked r. subst r.
  rewrite receive_modelTurn, (receiveModelTurn_marked env c w ps Hw Hmarked).
  cbn [trace completion fst snd]. rewrite mediaEvents_app, sent_app.
  split; [reflexivity |].
  split; [destruct tc; reflexivity |].
  split; [destruct tc; reflexivity |].
  split; [reflexivity | apply errorMessage_says].
Qed.

Lemma marked_turn_corrected_witness :
  ws connected = Some 1
  /\ hasCodeSyntax (stringify (json_of_parts codeTurn)) = true
  /\ mediaEvents (trace (receive sampleEnv connected connected (modelTurnMessage true codeTurn)))
     = [EvContent [errorMessage (url connected)]].
Proof.
  split; [reflexivity |]. split; [vm_compute; reflexivity |].
  refine (proj1 (proj2 (marked_turn_corrected sampleEnv connected connected 1 true codeTurn _ _)));
    vm_compute; reflexivity.
Defined.

(** ** C2: a frame that carries code syntax *)

(** C2, as stated, fails on a frame of two calls whose second call carries
    [print(]: the frame is rejected as a whole, but only the id of its first
    call is answered; id 2 is present in the frame and gets no entry. *)
Lemma frame_rejection_counterexample :
  hasCodeSyntax (stringify (json_of_ToolCallMessage markedFrame)) = true
  /\ In "2" (map fc_id (functionCalls markedFrame))
  /\ respondedIds (trace (receive sampleEnv connected connected (ToolCallMessage markedFrame)))
     = ["1"].
Proof. repeat split; vm_compute; auto. Qed.

(** C2, amended: for a tool-call frame whose serialization contains a
    code-syntax marker, handled by a client that owns a socket, the frame is
    rejected at once: exactly one tool response is sent, with a single
    corrective entry addressed to the id of the first call of the frame (to
    [error] when that id is empty or there is no call), no fetch is executed
    for any call, and handling ends there. *)
Theorem frame_rejection (env : Env) (c c' : Client) (w : WebSocket) (tc : ToolCall) :
  ws c = Some w ->
  hasCodeSyntax (stringify (json_of_ToolCallMessage tc)) = true ->
  let r := receive env c c' (ToolCallMessage tc) in
  r = ([Emit (EvLog "server.toolCall"); Emit (EvLog "server.debug");
        WsSend w (ToolResponseMessage
                    [{| fr_id := firstIdOrError tc; fr_response := codeSyntaxResponse |}]);
        Emit (EvLog "client.toolResponse")],
       Returned tt)
  /\ responseEntries (trace r)
     = [{| fr_id := firstIdOrError tc; fr_response := codeSyntaxResponse |}]
  /\ fetched (trace r) = [].
Proof.
  intros Hw Hmarked r. subst r. cbn [receive].
  rewrite (receiveToolCall_rejected env c c' w tc Hw Hmarked).
  repeat split; reflexivity.
Qed.

Lemma frame_rejection_witness :
  ws connected = Some 1
  /\ hasCodeSyntax (stringify (json_of_ToolCallMessage markedFrame)) = true
  /\ fetched (trace (receive sampleEnv connected connected (ToolCallMessage markedFrame))) = [].
Proof.
  split; [reflexivity |]. split; [vm_compute; reflexivity |].
  refine (proj2 (proj2 (frame_rejection sampleEnv connected connected 1 markedFrame _ _)));
    vm_compute; reflexivity.
Defined.

(** ** C3: calls the gatekeeper rejects one by one *)

(** C3, as stated, fails on three frames.  A call with [print(] in its
    serialized arguments that is not the first of its frame gets no entry for
    its id (the frame is rejected as a whole, in the name of the first call).
    A call whose arguments are an array gets no response at all.  A call whose
    [pdfUri] is the number 123 is not rejected: its fetch is executed. *)
Lemma call_rejection_counterexample :
  (In printCall (functionCalls markedFrame)
   /\ includes (stringify (fc_args printCall)) "print(" = true
   /\ ~ In (fc_id printCall)
          (respondedIds
             (trace (receive sampleEnv connected connected (ToolCallMessage markedFrame)))))
  /\ respondedIds (trace (receive sampleEnv connected connected (ToolCallMessage arrayFrame)))
     = []
  /\ fetched (trace (receive sampleEnv connected connected (ToolCallMessage numberFrame)))
     = ["https://generativelanguage.googleapis.com/v1beta/files/123/content"].
Proof.
  repeat split; try (vm_compute; auto; fail).
  intros H. vm_compute in H. destruct H as [H | []]. discriminate H.
Qed.

(** C3, amended: in a tool-call frame whose serialization contains no
    code-syntax marker, handled by a client that owns a socket, take a call
    named [pdf_lookup] whose arguments are not a plain mapping, or are a
    mapping whose serialization contains an invalid pattern, or that does not
    have exactly one key, or whose [pdfUri] is absent or falsy (empty).  The
    call is excluded from execution: it is not among the queued calls, and the
    fetches of the frame are exactly those of the queued calls.  When its
    arguments are a mapping, a tool response with a single corrective entry
    for the call's id is sent. *)
Theorem call_rejection (env : Env) (c c' : Client) (w w' : WebSocket)
        (tc : ToolCall) (fc : FunctionCall) :
  ws c = Some w -> ws c' = Some w' ->
  hasCodeSyntax (stringify (json_of_ToolCallMessage tc)) = false ->
  In fc (functionCalls tc) ->
  fc_name fc = "pdf_lookup" ->
  match fc_args fc with
  | JObj kvs =>
      hasInvalidPattern (stringify (JObj kvs)) = true
      \/ length kvs <> 1
      \/ truthy (get "pdfUri" kvs) = false
  | _ => True
  end ->
  let t := trace (receive env c c' (ToolCallMessage tc)) in
  ~ In fc (pdfLookupCalls tc)
  /\ fetched t = map fetchAddress (pdfLookupCalls tc)
  /\ match fc_args fc with
     | JObj _ =>
         exists r,
           (r = invalidFormatResponse \/ r = invalidStructureResponse)
           /\ In (ToolResponseMessage [{| fr_id := fc_id fc; fr_response := r |}]) (sent t)
     | _ => True
     end.
Proof.
  intros Hw Hw' Hclean Hin Hname Hbad t. subst t. cbn [receive].
  destruct (receiveToolCall_clean_effects env c c' w w' tc Hw Hw' Hclean) as (Hs & Hf & _).
  assert (Hinvalid : validCall fc = false
                     /\ match fc_args fc with
                        | JObj _ => exists r,
                            (r = invalidFormatResponse \/ r = invalidStructureResponse)
                            /\ correction fc = Some r
                        | _ => True
                        end).
  { unfold validCall, correction. rewrite Hname. cbn [String.eqb Ascii.eqb Bool.eqb andb].
    destruct (fc_args fc) as [| | | | |kvs]; try (split; [reflexivity | exact I]).
    destruct (hasInvalidPattern (stringify (JObj kvs))) eqn:Hp.
    { split; [reflexivity | exists invalidFormatResponse; auto]. }
    destruct Hbad as [Hbad | [Hlen | Huri]]; [discriminate Hbad | |].
    - apply Nat.eqb_neq in Hlen. rewrite Hlen, orb_true_r, andb_false_r.
      split; [reflexivity | exists invalidStructureResponse; auto].
    - rewrite Huri. split; [reflexivity | exists invalidStructureResponse; auto]. }
  destruct Hinvalid as [Hv Hc].
  split.
  { unfold pdfLookupCalls. intros Hq. apply filter_In in Hq. destruct Hq as [_ Hq]. congruence. }
  split; [exact Hf |].
  destruct (fc_args fc); try exact I.
  destruct Hc as (r & Hr & Hc). exists r. split; [exact Hr |].
  rewrite Hs. apply in_or_app. left.
  apply (in_map (fun fr => ToolResponseMessage [fr]) _
           {| fr_id := fc_id fc; fr_response := r |}).
  apply in_flat_map. exists fc. split; [exact Hin |].
  unfold correctionEntries. rewrite Hc. left. reflexivity.
Qed.

Lemma call_rejection_witness :
  ws connected = Some 1
  /\ hasCodeSyntax (stringify (json_of_ToolCallMessage scenarioB)) = false
  /\ fetched (trace (receive sampleEnv connected connected (ToolCallMessage scenarioB))) = [].
Proof.
  split; [reflexivity |]. split; [vm_compute; reflexivity |].
  refine (proj1 (proj2 (call_rejection sampleEnv connected connected 1 1 scenarioB
                          (call "1" (JObj [("pdfUri", JStr "files/abc123"); ("extra", JStr "x")]))
                          _ _ _ _ _ _))).
  - reflexivity.
  - reflexivity.
  - vm_compute; reflexivity.
  - left; reflexivity.
  - reflexivity.
  - right; left. cbn. lia.
Defined.

(** ** C4: the ids that are answered *)

(** C4, as stated, fails on a marked frame whose first call has an empty id:
    the response is addressed to the id [error], which no call of the frame
    carries. *)
Lemma responded_ids_counterexample :
  respondedIds (trace (receive sampleEnv connected connected (ToolCallMessage anonymousFrame)))
  = ["error"]
  /\ ~ In "error" (map fc_id (functionCalls anonymousFrame)).
Proof.
  split; [vm_compute; reflexivity |].
  intros H. vm_compute in H. destruct H as [H | []]. discriminate H.
Qed.

(** C4, amended: whatever the client's state, every id that appears in a tool
    response sent while a tool-call frame is handled is the id of a call of
    that frame, or it is the fallback id [error], which is used only when the
    frame is rejected for a code-syntax marker and its first call has an empty
    id (or the frame has no call). *)
Theorem responded_ids_within_frame (env : Env) (c c' : Client) (tc : ToolCall) (i : string) :
  In i (respondedIds (trace (receive env c c' (ToolCallMessage tc)))) ->
  In i (map fc_id (functionCalls tc))
  \/ (i = "error"
      /\ hasCodeSyntax (stringify (json_of_ToolCallMessage tc)) = true
      /\ match functionCalls tc with
         | [] => True
         | fc :: _ => fc_id fc = EmptyString
         end).
Proof.
  cbn [receive]. unfold receiveToolCall, respondedIds.
  rewrite !trace_bind. cbn [log emit tell trace completion fst snd].
  rewrite !responseEntries_app. cbn [responseEntries sent flat_map app].
  destruct (hasCodeSyntax (stringify (json_of_ToolCallMessage tc))) eqn:Hmarked.
  - destruct (ws c) as [w |] eqn:Hw.
    + rewrite (sendToolResponse_connected c w Hw). cbn.
      intros [<- | []]. unfold firstIdOrError.
      destruct (functionCalls tc) as [| fc rest]; [right; auto |].
      destruct (String.eqb (fc_id fc) EmptyString) eqn:He.
      * apply String.eqb_eq in He. right; auto.
      * left. left. reflexivity.
    + rewrite (sendToolResponse_unconnected c _ Hw). intros [].
  - rewrite trace_bind, responseEntries_app, map_app. intros Hin.
    apply in_app_or in Hin. left. destruct Hin as [Hin | Hin].
    + apply in_map_iff in Hin. destruct Hin as (fr & <- & Hfr).
      apply (filterM_checkCall_entries c _ fr Hfr).
    + destruct (completion (filterM (checkCall c) (functionCalls tc))) as [l |] eqn:Hl;
        [| destruct Hin].
      apply filterM_checkCall_returned in Hl. subst l.
      rewrite trace_bind, responseEntries_app, map_app in Hin.
      apply in_app_or in Hin. destruct Hin as [Hin | Hin].
      * apply in_map_iff in Hin. destruct Hin as (fr & <- & Hfr).
        apply executeCalls_entries in Hfr.
        apply in_map_iff in Hfr. destruct Hfr as (fc & <- & Hfc).
        apply filter_In in Hfc. apply in_map, Hfc.
      * destruct (completion (executeCalls env c c' _)); destruct Hin.
Qed.

Lemma responded_ids_within_frame_witness :
  In "1" (respondedIds (trace (receive sampleEnv connected connected (ToolCallMessage scenarioA))))
  /\ In "1" (map fc_id (functionCalls scenarioA)).
Proof.
  assert (H : In "1" (respondedIds
                        (trace (receive sampleEnv connected connected (ToolCallMessage scenarioA))))).
  { vm_compute. left. reflexivity. }
  split; [exact H |].
  destruct (responded_ids_within_frame sampleEnv connected connected scenarioA "1" H)
    as [Hin | (He & _)]; [exact Hin | discriminate He].
Defined.

(** ** C5: publication of the raw tool call *)

(** C5, as stated, fails on a frame rejected for a code-syntax marker:
    handling ends after the corrective response, and no [toolcall] event is
    emitted. *)
Lemma toolcall_publication_counterexample :
  hasCodeSyntax (stringify (json_of_ToolCallMessage markedFrame)) = true
  /\ publishedToolCalls
       (trace (receive sampleEnv connected connected (ToolCallMessage markedFrame))) = [].
Proof. split; vm_compute; reflexivity. Qed.

(** C5, amended: for a tool-call frame whose serialization contains no
    code-syntax marker, handled by a client that owns a socket (when the frame
    arrives and when its fetches have settled), whatever the outcome of the
    validation of each call and of the fetches, the raw tool call, with all
    the calls as received, is published exactly once through the [toolcall]
    event, as the last effect of handling the frame. *)
Theorem toolcall_published (env : Env) (c c' : Client) (w w' : WebSocket) (tc : ToolCall) :
  ws c = Some w -> ws c' = Some w' ->
  hasCodeSyntax (stringify (json_of_ToolCallMessage tc)) = false ->
  let r := receive env c c' (ToolCallMessage tc) in
  completion r = Returned tt
  /\ publishedToolCalls (trace r) = [tc]
  /\ exists t, trace r = t ++ [Emit (EvToolCall tc)].
Proof.
  intros Hw Hw' Hclean r. subst r. cbn [receive].
  destruct (receiveToolCall_clean_effects env c c' w w' tc Hw Hw' Hclean) as (_ & _ & Hp).
  split; [| split; [exact Hp |]];
    rewrite (receiveToolCall_connected env c c' w w' tc Hw Hw' Hclean); [reflexivity |].
  cbn [trace fst]. eexists. rewrite !app_assoc. reflexivity.
Qed.

Lemma toolcall_published_witness :
  ws connected = Some 1
  /\ hasCodeSyntax (stringify (json_of_ToolCallMessage scenarioB)) = false
  /\ publishedToolCalls
       (trace (receive sampleEnv connected connected (ToolCallMessage scenarioB))) = [scenarioB].
Proof.
  split; [reflexivity |]. split; [vm_compute; reflexivity |].
  refine (proj1 (proj2 (toolcall_published sampleEnv connected connected 1 1 scenarioB _ _ _)));
    vm_compute; reflexivity.
Defined.

(** ** C6: a fetch of the batch fails *)

(** C6, as stated, fails when the client has released its socket by the time
    the fetches settle (a [disconnect] while they are pending): the failure of
    a fetch is caught, but the corrective response cannot be sent, so neither
    valid call of the batch is answered and handling ends with the error of
    the send. *)
Lemma batch_failure_counterexample :
  hasCodeSyntax (stringify (json_of_ToolCallMessage failingBatch)) = false
  /\ map fc_id (pdfLookupCalls failingBatch) = ["1"; "2"]
  /\ completion (lookupCall sampleEnv connected missingCall)
     = Threw "Failed to fetch PDF content: Not Found"
  /\ let r := receive sampleEnv connected (released connected) (ToolCallMessage failingBatch) in
     sent (trace r) = []
     /\ completion r = Threw "WebSocket is not connected".
Proof. repeat split; vm_compute; reflexivity. Qed.

(** C6, amended: for a tool-call frame without code-syntax marker, handled by
    a client that owns a socket (when the frame arrives and when its fetches
    have settled), if the fetch of one of the queued (valid) calls throws,
    then after the corrective responses of the validation exactly one tool
    response is sent for the batch, with one entry per queued call, in order,
    each carrying that call's id and the same fetch-failure payload; and no
    entry sent while the frame is handled carries a [text] field.  The
    failure payload has an [error] text that begins with the failure notice
    and recalls the call of [pdf_lookup], and an [example] of that call. *)
Theorem batch_failure_uniform (env : Env) (c c' : Client) (w w' : WebSocket)
        (tc : ToolCall) (fc : FunctionCall) (e : string) :
  ws c = Some w -> ws c' = Some w' ->
  hasCodeSyntax (stringify (json_of_ToolCallMessage tc)) = false ->
  In fc (pdfLookupCalls tc) ->
  completion (lookupCall env c fc) = Threw e ->
  let r := receive env c c' (ToolCallMessage tc) in
  completion r = Returned tt
  /\ sent (trace r)
     = map (fun fr => ToolResponseMessage [fr]) (flat_map correctionEntries (functionCalls tc))
       ++ [ToolResponseMessage
             (map (fun q => {| fr_id := fc_id q; fr_response := fetchFailedResponse |})
                  (pdfLookupCalls tc))]
  /\ (forall fr, In fr (responseEntries (trace r)) -> hasText (fr_response fr) = false)
  /\ exists msg,
       errorText fetchFailedResponse = Some msg
       /\ startsWith msg "Failed to fetch PDF content." = true
       /\ includes msg (member "name" "pdf_lookup") = true
       /\ exampleCall fetchFailedResponse = Some (example "your_uri_here").
Proof.
  intros Hw Hw' Hclean Hin He r. subst r. cbn [receive].
  destruct (receiveToolCall_clean_effects env c c' w w' tc Hw Hw' Hclean) as (Hs & _ & _).
  rewrite (batchAnswer_failed env c _ fc e Hin He) in Hs.
  assert (Hs' : sent (trace (receiveToolCall env c c' tc))
                = map (fun fr => ToolResponseMessage [fr])
                    (flat_map correctionEntries (functionCalls tc))
                  ++ [ToolResponseMessage (map fetchFailedEntry (pdfLookupCalls tc))]).
  { rewrite Hs. destruct (pdfLookupCalls tc); [destruct Hin | reflexivity]. }
  split; [rewrite (receiveToolCall_connected env c c' w w' tc Hw Hw' Hclean); reflexivity |].
  split; [exact Hs' |].
  split; [| exact fetchFailedResponse_says].
  intros fr. unfold responseEntries.
  rewrite Hs', flat_map_app, entries_of_singletons. cbn [flat_map]. rewrite app_nil_r.
  intros Hfr. apply in_app_or in Hfr. destruct Hfr as [Hfr | Hfr].
  - apply in_flat_map in Hfr. destruct Hfr as (q & _ & Hq).
    apply (correctionEntries_id q fr Hq).
  - apply in_map_iff in Hfr. destruct Hfr as (q & <- & _). reflexivity.
Qed.

Lemma batch_failure_uniform_witness :
  ws connected = Some 1
  /\ In missingCall (pdfLookupCalls failingBatch)
  /\ sent (trace (receive sampleEnv connected connected (ToolCallMessage failingBatch)))
     = [ToolResponseMessage
          [{| fr_id := "1"; fr_response := fetchFailedResponse |};
           {| fr_id := "2"; fr_response := fetchFailedResponse |}]].
Proof.
  split; [reflexivity |]. split; [vm_compute; auto |].
  refine (proj1 (proj2 (batch_failure_uniform sampleEnv connected connected 1 1 failingBatch
                          missingCall "Failed to fetch PDF content: Not Found" _ _ _ _ _))).
  - reflexivity.
  - reflexivity.
  - vm_compute; reflexivity.
  - vm_compute; auto.
  - vm_compute; reflexivity.
Defined.

(** ** C8: [disconnect] with a handle *)

(** C8: in every state of the client, [disconnect] with a handle that is not
    the socket the client owns returns false, closes nothing and leaves the
    client, and so the socket it owns, as it was; and whenever a call of
    [disconnect] returns true, no handle was given or the given handle is the
    owned socket, and it is that socket which is closed and released. *)
Theorem disconnect_identity (c : Client) (given : WebSocket) :
  ws c <> Some given ->
  disconnect c (Some given) = (c, false, [])
  /\ forall arg c1 t,
       disconnect c arg = (c1, true, t) ->
       (arg = None \/ arg = ws c)
       /\ exists owned, ws c = Some owned /\ ws c1 = None /\ closed t = [owned].
Proof.
  intros Hne. split; [apply disconnect_other, Hne |].
  intros arg c1 t. apply disconnect_closes.
Qed.

Lemma disconnect_identity_witness :
  ws connected <> Some 2
  /\ disconnect connected (Some 2) = (connected, false, []).
Proof.
  assert (H : ws connected <> Some 2) by (cbn; congruence).
  split; [exact H | exact (proj1 (disconnect_identity connected 2 H))].
Defined.

(** ** C9: the transport errors before it opens *)

(** C9 at a connection attempt that fails before the socket opens: the
    returned promise is rejected with the message that quotes the address, and
    nothing is sent, so no setup frame; but the call of [disconnect] in the
    error listener finds that the failing socket is not the one the client
    owns (it is stored only once it opens), so nothing is closed: the
    half-open socket is not torn down. *)
Theorem connect_error_no_teardown (c : Client) (cfg : option loc) (w : WebSocket)
        (evType : string) :
  ws c <> Some w ->
  let '(c1, _, t1) := connect c cfg w in
  let '(c2, promise, t2) := onError c1 w evType in
  promise = Rejected (couldNotConnect (url c))
  /\ sent (t1 ++ t2) = []
  /\ closed (t1 ++ t2) = []
  /\ ws c2 = ws c.
Proof.
  intros Hne. unfold connect, onError.
  rewrite disconnect_other; [| exact Hne].
  repeat split; reflexivity.
Qed.

Lemma connect_error_no_teardown_witness :
  ws unconnected <> Some 7
  /\ closed (snd (connect unconnected (Some 1%positive) 7)
             ++ snd (onError (fst (fst (connect unconnected (Some 1%positive) 7))) 7 "error"))
     = [].
Proof.
  assert (H : ws unconnected <> Some 7) by (cbn; congruence).
  split; [exact H |].
  exact (proj1 (proj2 (proj2 (connect_error_no_teardown unconnected (Some 1%positive) 7 "error" H)))).
Defined.

(** ** C10: [getConfig] returns a copy *)

(** C10: [getConfig] returns a new object that holds the properties of the
    stored config; whatever properties the caller then sets on or deletes from
    the returned object, the stored config reads as before, and so does every
    object the store held before the call. *)
Theorem getConfig_copy (c : Client) (h : gmap loc (gmap string value)) (ms : list Mutation) :
  config_allocated c h ->
  let r := fst (getConfig c h) in
  let h2 := mutateAll r ms (snd (getConfig c h)) in
  h !! r = None
  /\ snd (getConfig c h) !! r = Some (default ∅ (storedConfig c h))
  /\ storedConfig c h2 = storedConfig c h
  /\ forall a o, h !! a = Some o -> h2 !! a = Some o.
Proof.
  intros Halloc r h2.
  assert (Hfresh : h !! r = None) by apply getConfig_fresh.
  assert (Hkeep : forall a o, h !! a = Some o -> h2 !! a = Some o).
  { intros a o Ha. subst h2.
    assert (Hne : a <> r) by (intros ->; congruence).
    rewrite (mutateAll_other r a ms _ Hne).
    unfold getConfig; cbn [snd]. rewrite lookup_insert_ne; [exact Ha |].
    intros Heq. apply Hne. symmetry. exact Heq. }
  split; [exact Hfresh |]. split; [| split; [| exact Hkeep]].
  - unfold getConfig, storedConfig; cbn [snd]. subst r. unfold getConfig; cbn [fst].
    rewrite lookup_insert_eq. destruct (config c) as [a |]; [| reflexivity].
    destruct (h !! a); reflexivity.
  - unfold storedConfig, config_allocated in *.
    destruct (config c) as [a |]; [| reflexivity].
    destruct Halloc as [o Ho]. rewrite Ho. apply Hkeep, Ho.
Qed.

Lemma getConfig_copy_witness :
  config_allocated connected sampleStore
  /\ storedConfig connected
       (mutateAll (fst (getConfig connected sampleStore))
          [SetProperty "model" (VJson (JStr "other")); DeleteProperty "generationConfig"]
          (snd (getConfig connected sampleStore)))
     = storedConfig connected sampleStore.
Proof.
  assert (H : config_allocated connected sampleStore).
  { unfold config_allocated, connected, sampleStore; cbn [config].
    rewrite lookup_insert_eq. eexists; reflexivity. }
  split; [exact H |].
  exact (proj1 (proj2 (proj2 (getConfig_copy connected sampleStore
                                [SetProperty "model" (VJson (JStr "other"));
                                 DeleteProperty "generationConfig"] H)))).
Defined.

(** * Further properties of the client *)

(** ** Invariants of traces *)

Section TraceInvariant.
Variable P : Effect -> Prop.

Lemma Forall_trace_bind {A B} (m : M A) (f : A -> M B) :
  Forall P (trace m) -> (forall a, Forall P (trace (f a))) -> Forall P (trace (bind m f)).
Proof.
  intros Hm Hf. rewrite trace_bind. apply Forall_app. split; [exact Hm |].
  destruct (completion m); [apply Hf | constructor].
Qed.

Lemma Forall_trace_try_catch {A} (m : M A) (handler : string -> M A) :
  Forall P (trace m) -> (forall e, Forall P (trace (handler e))) ->
  Forall P (trace (try_catch m handler)).
Proof.
  intros Hm Hh. destruct m as [t [a | e]]; cbn [try_catch]; [exact Hm |].
  specialize (Hh e). destruct (handler e) as [t' r]. cbn [trace fst] in *.
  apply Forall_app. split; assumption.
Qed.

Lemma Forall_trace_filterM {A} (f : A -> M bool) (xs : list A) :
  (forall x, Forall P (trace (f x))) -> Forall P (trace (filterM f xs)).
Proof.
  intros Hf. induction xs as [| x rest IH]; [constructor |].
  cbn [filterM]. apply Forall_trace_bind; [apply Hf |].
  intros b. apply Forall_trace_bind; [exact IH |]. intros ys. constructor.
Qed.

Lemma Forall_trace_forEach {A} (f : A -> M unit) (xs : list A) :
  (forall x, Forall P (trace (f x))) -> Forall P (trace (forEach f xs)).
Proof.
  intros Hf. induction xs as [| x rest IH]; [constructor |].
  cbn [forEach]. apply Forall_trace_bind; [apply Hf | intros _; exact IH].
Qed.

Lemma Forall_trace_promiseAll {A} (ms : list (M A)) :
  (forall m, In m ms -> Forall P (trace m)) -> Forall P (trace (promiseAll ms)).
Proof.
  intros Hms. rewrite promiseAll_trace.
  induction ms as [| m rest IH]; [constructor |].
  cbn [map concat]. apply Forall_app. split.
  - apply Hms. left. reflexivity.
  - apply IH. intros m' Hin. apply Hms. right. exact Hin.
Qed.

Hypothesis P_emit : forall e, P (Emit e).

Lemma Forall_trace_log (type : string) : Forall P (trace (log type)).
Proof. repeat constructor. apply P_emit. Qed.

Section Sends.
Variable c : Client.
Hypothesis P_send : forall w m, ws c = Some w -> P (WsSend w m).

Lemma Forall_trace_sendDirect (m : OutboundMessage) : Forall P (trace (_sendDirect c m)).
Proof.
  unfold _sendDirect. destruct (ws c) as [w |] eqn:Hw; repeat constructor.
  apply P_send. reflexivity.
Qed.

Lemma Forall_trace_sendToolResponse (frs : list FunctionResponse) :
  Forall P (trace (sendToolResponse c frs)).
Proof.
  unfold sendToolResponse. apply Forall_trace_bind; [apply Forall_trace_sendDirect |].
  intros _. apply Forall_trace_log.
Qed.

Lemma Forall_trace_send (ps : list Part) (tc : bool) : Forall P (trace (send c ps tc)).
Proof.
  unfold send. apply Forall_trace_bind; [apply Forall_trace_sendDirect |].
  intros _. apply Forall_trace_log.
Qed.

Lemma Forall_trace_checkCall (fc : FunctionCall) : Forall P (trace (checkCall c fc)).
Proof.
  unfold checkCall.
  repeat first
    [ apply Forall_trace_log
    | apply Forall_trace_sendToolResponse
    | apply Forall_trace_bind; [| intros _]
    | match goal with
      | |- Forall P (trace (if ?b then _ else _)) => destruct b
      | |- Forall P (trace (match ?j with JNull => _ | _ => _ end)) => destruct j
      | |- Forall P (trace (ret _)) => constructor
      end ].
Qed.

Lemma Forall_trace_emitAudio (env : Env) (b64 : option string) :
  Forall P (trace (emitAudio env b64)).
Proof.
  unfold emitAudio. destruct b64 as [s |]; [| constructor].
  destruct (negb (String.eqb s EmptyString)); [| constructor].
  repeat constructor; apply P_emit.
Qed.

Lemma Forall_trace_receiveModelTurn (env : Env) (ps : list Part) :
  Forall P (trace (receiveModelTurn env c ps)).
Proof.
  unfold receiveModelTurn.
  destruct (hasCodeSyntax (stringify (json_of_parts ps))).
  - apply Forall_trace_bind; [apply Forall_trace_log |]. intros _.
    apply Forall_trace_bind; [apply Forall_trace_send |]. intros _.
    repeat constructor; apply P_emit.
  - apply Forall_trace_bind; [apply Forall_trace_forEach, Forall_trace_emitAudio |].
    intros _. destruct (Nat.eqb _ 0); [constructor |].
    repeat constructor; apply P_emit.
Qed.
End Sends.
End TraceInvariant.

(** ** Sockets and requests *)

Lemma lookupCall_ownedOnly (env : Env) (c0 c c' : Client) (fc : FunctionCall) :
  Forall (ownedOnly c c') (trace (lookupCall env c0 fc)).
Proof.
  unfold lookupCall. destruct (pdfUri fc) as [uri |]; [| constructor].
  destruct (truthy (Some uri)); [| constructor]. cbn [negb].
  rewrite trace_bind, fetchPdfText_trace.
  destruct (completion (fetchPdfText env c0 uri)); repeat constructor.
Qed.

Lemma executeCalls_ownedOnly (env : Env) (c c' : Client) (calls : list FunctionCall) :
  Forall (ownedOnly c c') (trace (executeCalls env c c' calls)).
Proof.
  assert (Hsend : forall frs, Forall (ownedOnly c c') (trace (sendToolResponse c' frs))).
  { intros frs. apply Forall_trace_sendToolResponse; [intros e; exact I |].
    intros w m Hw. right. exact Hw. }
  unfold executeCalls. destruct (Nat.ltb 0 (length calls)); [| constructor].
  apply Forall_trace_try_catch; [| intros _; apply Hsend].
  apply Forall_trace_bind; [| intros frs; apply Hsend].
  apply Forall_trace_promiseAll. intros m Hin.
  apply in_map_iff in Hin. destruct Hin as (fc & <- & _). apply lookupCall_ownedOnly.
Qed.

(** X1: Whatever the frame and the state of the client, handling a frame sends
    only on the socket the client owns, when the frame is handled or when its
    fetches have settled, and it neither creates nor closes a socket. *)
Theorem receive_sockets (env : Env) (c c' : Client) (msg : LiveIncomingMessage) :
  Forall (ownedOnly c c') (trace (receive env c c' msg))
  /\ opened (trace (receive env c c' msg)) = []
  /\ closed (trace (receive env c c' msg)) = [].
Proof.
  assert (Hemit : forall e, ownedOnly c c' (Emit e)) by (intros e; exact I).
  assert (Hsend : forall w m, ws c = Some w -> ownedOnly c c' (WsSend w m))
    by (intros w m Hw; left; exact Hw).
  assert (Hall : Forall (ownedOnly c c') (trace (receive env c c' msg))).
  { destruct msg as [tc | tcc | | sc |]; cbn [receive].
    - unfold receiveToolCall.
      apply Forall_trace_bind; [apply Forall_trace_log, Hemit | intros _].
      apply Forall_trace_bind; [apply Forall_trace_log, Hemit | intros _].
      destruct (hasCodeSyntax _); [apply Forall_trace_sendToolResponse; assumption |].
      apply Forall_trace_bind;
        [apply Forall_trace_filterM; intros fc; apply Forall_trace_checkCall; assumption |].
      intros l. apply Forall_trace_bind; [apply executeCalls_ownedOnly |].
      intros _. repeat constructor.
    - repeat constructor.
    - repeat constructor.
    - destruct (isInterrupted sc); [repeat constructor |].
      apply Forall_trace_bind.
      + destruct (isTurnComplete sc); repeat constructor.
      + intros _. destruct (modelTurn sc) as [ps |]; [| constructor].
        apply Forall_trace_receiveModelTurn; assumption.
    - constructor. }
  split; [exact Hall |].
  induction Hall as [| e t He _ [IHo IHc]]; [split; reflexivity |].
  destruct e; cbn in He; try destruct He; split; cbn; assumption.
Qed.

Lemma fetched_noFetch (t : list Effect) : Forall noFetch t -> fetched t = [].
Proof.
  induction 1 as [| e t He _ IH]; [reflexivity |].
  destruct e; cbn in *; try exact IH. destruct He.
Qed.

Lemma sendToolResponse_noFetch (c : Client) (frs : list FunctionResponse) :
  Forall noFetch (trace (sendToolResponse c frs)).
Proof.
  apply Forall_trace_sendToolResponse; [intros e | intros w m _]; exact I.
Qed.

Lemma executeCalls_fetched (env : Env) (c c' : Client) (calls : list FunctionCall) :
  Forall (fun fc => validCall fc = true) calls ->
  fetched (trace (executeCalls env c c' calls)) = map fetchAddress calls.
Proof.
  intros Hv. destruct (ws c') as [w' |] eqn:Hw.
  - apply (executeCalls_effects env c c' w' calls Hw Hv).
  - unfold executeCalls. destruct calls as [| fc rest]; [reflexivity |].
    cbn [length Nat.ltb Nat.leb]. set (calls := fc :: rest) in *.
    assert (Hp : fetched (trace (promiseAll (map (lookupCall env c) calls)))
                 = map fetchAddress calls).
    { rewrite promiseAll_trace, map_map. apply lookups_fetched, Hv. }
    rewrite (M_eta (promiseAll (map (lookupCall env c) calls))).
    destruct (completion (promiseAll (map (lookupCall env c) calls)));
      unfold bind, try_catch; rewrite !(sendToolResponse_unconnected c' _ Hw);
      cbn [trace fst]; rewrite ?app_nil_r; exact Hp.
Qed.

(** X2: Whatever the state of the client, the only requests of [fetch] that
    handling a frame makes are those of the calls of a tool-call frame that
    carries no code syntax and that pass the validation: one request per such
    call, in order, or none when handling stopped before the batch. *)
Theorem receive_fetches (env : Env) (c c' : Client) (msg : LiveIncomingMessage) :
  fetched (trace (receive env c c' msg)) = []
  \/ exists tc,
       msg = ToolCallMessage tc
       /\ hasCodeSyntax (stringify (json_of_ToolCallMessage tc)) = false
       /\ fetched (trace (receive env c c' msg)) = map fetchAddress (pdfLookupCalls tc).
Proof.
  assert (Hemit : forall e, noFetch (Emit e)) by (intros e; exact I).
  destruct msg as [tc | tcc | | sc |]; cbn [receive]; try (left; reflexivity).
  - unfold receiveToolCall.
    rewrite !trace_bind. cbn [log emit tell trace completion fst snd].
    rewrite !fetched_app. cbn [fetched flat_map app].
    destruct (hasCodeSyntax (stringify (json_of_ToolCallMessage tc))) eqn:Hmarked.
    { left. apply fetched_noFetch, sendToolResponse_noFetch. }
    rewrite trace_bind, fetched_app.
    rewrite (fetched_noFetch (trace (filterM (checkCall c) (functionCalls tc)))).
    2:{ apply Forall_trace_filterM. intros fc.
        apply Forall_trace_checkCall; [exact Hemit | intros w m _; exact I]. }
    destruct (completion (filterM (checkCall c) (functionCalls tc))) as [l |] eqn:Hl;
      [| left; reflexivity].
    apply filterM_checkCall_returned in Hl. subst l. fold (pdfLookupCalls tc).
    right. exists tc. split; [reflexivity |]. split; [exact Hmarked |].
    rewrite trace_bind, fetched_app.
    rewrite (executeCalls_fetched env c c' _ (pdfLookupCalls_valid tc)).
    destruct (completion (executeCalls env c c' (pdfLookupCalls tc)));
      cbn; rewrite app_nil_r; reflexivity.
  - left. apply fetched_noFetch.
    destruct (isInterrupted sc); [repeat constructor |].
    apply Forall_trace_bind.
    + destruct (isTurnComplete sc); repeat constructor.
    + intros _. destruct (modelTurn sc) as [ps |]; [| constructor].
      apply Forall_trace_receiveModelTurn; [exact Hemit | intros w m _; exact I].
Qed.



(** ** Splitting, slicing and searching *)

Lemma prefix_first_differs (c0 ch : ascii) (p s : string) :
  Ascii.eqb ch c0 = false -> String.prefix (String c0 p) (String ch s) = false.
Proof.
  intros Hne. cbn [String.prefix]. destruct (ascii_dec c0 ch) as [-> | _]; [| reflexivity].
  rewrite Ascii.eqb_refl in Hne. discriminate Hne.
Qed.

Lemma split_aux_skip (sep x s : string) (cur : list ascii) :
  split_aux sep (x +:+ s) (String.length x) cur = split_aux sep s 0 cur.
Proof.
  induction x as [| ch x IH]; [reflexivity |].
  rewrite append_cons. cbn [split_aux String.length]. exact IH.
Qed.

Lemma split_aux_plain (c0 : ascii) (p s : string) (cur : list ascii) :
  occurs c0 s = false ->
  split_aux (String c0 p) s 0 cur
  = [string_of_list_ascii (rev cur ++ list_ascii_of_string s)].
Proof.
  revert cur. induction s as [| ch s IH]; intros cur Hs.
  - cbn. rewrite app_nil_r. reflexivity.
  - cbn [occurs] in Hs. apply orb_false_iff in Hs. destruct Hs as [Hch Hs].
    cbn [split_aux]. rewrite (prefix_first_differs c0 ch p s Hch), (IH (ch :: cur) Hs).
    cbn [rev list_ascii_of_string]. rewrite <- app_assoc. reflexivity.
Qed.

Lemma split_aux_before (c0 : ascii) (p s1 s2 : string) (cur : list ascii) :
  occurs c0 s1 = false ->
  split_aux (String c0 p) (s1 +:+ s2) 0 cur
  = split_aux (String c0 p) s2 0 (rev (list_ascii_of_string s1) ++ cur).
Proof.
  revert cur. induction s1 as [| ch s1 IH]; intros cur Hs; [reflexivity |].
  cbn [occurs] in Hs. apply orb_false_iff in Hs. destruct Hs as [Hch Hs].
  rewrite append_cons. cbn [split_aux].
  rewrite (prefix_first_differs c0 ch p (s1 +:+ s2) Hch), (IH (ch :: cur) Hs).
  cbn [rev list_ascii_of_string]. rewrite <- app_assoc. reflexivity.
Qed.

(** A separator that occurs once, between two pieces free of its first
    character, splits the string into these two pieces. *)
Lemma split_once (c0 : ascii) (p s1 s2 : string) :
  occurs c0 s1 = false -> occurs c0 s2 = false ->
  split (String c0 p) (s1 +:+ String c0 p +:+ s2) = [s1; s2].
Proof.
  intros H1 H2. unfold split. rewrite (split_aux_before c0 p s1 _ [] H1).
  rewrite app_nil_r.
  change (String c0 p +:+ s2) with (String c0 (p +:+ s2)). cbn [split_aux].
  change (String c0 (p +:+ s2)) with (String c0 p +:+ s2).
  rewrite prefix_refl_append.
  replace (String.length (String c0 p) - 1) with (String.length p)
    by (cbn [String.length]; lia).
  rewrite rev_involutive, string_of_list_ascii_of_string, split_aux_skip.
  rewrite (split_aux_plain c0 p s2 [] H2). cbn [rev app].
  rewrite string_of_list_ascii_of_string. reflexivity.
Qed.

Lemma toLowerCase_append (x y : string) :
  toLowerCase (x +:+ y) = toLowerCase x +:+ toLowerCase y.
Proof.
  induction x as [| ch x IH]; [reflexivity |].
  rewrite append_cons. cbn [toLowerCase]. rewrite IH, append_cons. reflexivity.
Qed.

Lemma slice_append (x y : string) (n : nat) :
  slice (String.length x + n) (x +:+ y) = slice n y.
Proof.
  induction x as [| ch x IH]; [reflexivity |].
  rewrite append_cons. cbn [String.length Nat.add slice]. exact IH.
Qed.

Lemma slice_suffix (n : nat) (s : string) : exists p, s = p +:+ slice n s.
Proof.
  revert s. induction n as [| n IH]; intros s; [exists EmptyString; reflexivity |].
  destruct s as [| ch s]; [exists EmptyString; reflexivity |].
  destruct (IH s) as [p Hp]. exists (String ch p).
  rewrite append_cons. cbn [slice]. rewrite <- Hp. reflexivity.
Qed.

Lemma indexOf_from_first (c0 : ascii) (p pre s : string) (i : nat) :
  occurs c0 pre = false ->
  indexOf_from (String c0 p) (pre +:+ String c0 p +:+ s) i = Some (i + String.length pre).
Proof.
  revert i. induction pre as [| ch pre IH]; intros i Hpre.
  - change (EmptyString +:+ String c0 p +:+ s) with (String c0 p +:+ s).
    cbn [String.length]. rewrite Nat.add_0_r.
    rewrite append_cons. cbn [indexOf_from]. rewrite <- append_cons.
    rewrite prefix_refl_append. reflexivity.
  - cbn [occurs] in Hpre. apply orb_false_iff in Hpre. destruct Hpre as [Hch Hpre].
    rewrite append_cons. cbn [indexOf_from String.length].
    rewrite (prefix_first_differs c0 ch p _ Hch), (IH (S i) Hpre).
    f_equal. lia.
Qed.

(** ** The constructor and the access key *)

(** X4: A client built by the constructor from an address and a key that hold no
    question mark (the default address holds none) reads back the same key
    from its address, and every request of [fetchPdfText] carries it. *)
Theorem newClient_apiKey (env : Env) (address : option string) (key : string) (uri : json) :
  occurs "?" (match address with Some u => u | None => EmptyString end) = false ->
  occurs "?" key = false ->
  apiKey (newClient address key) = Some key
  /\ trace (fetchPdfText env (newClient address key) uri)
     = [Fetch ("https://generativelanguage.googleapis.com/v1beta/files/"
               +:+ toString uri +:+ "/content") (Some key)]
  /\ ws (newClient address key) = None.
Proof.
  intros Haddr Hkey.
  assert (Hk : apiKey (newClient address key) = Some key).
  { unfold apiKey, newClient; cbn [url].
    set (base := match address with
                 | Some u => if String.eqb u EmptyString then defaultUrl else u
                 | None => defaultUrl
                 end).
    assert (Hbase : occurs "?" base = false).
    { subst base. destruct address as [u |]; [| vm_compute; reflexivity].
      destruct (String.eqb u EmptyString); [vm_compute; reflexivity | exact Haddr]. }
    change "?key=" with (String "?" "key=").
    rewrite (split_once "?" "key=" base key Hbase Hkey). reflexivity. }
  split; [exact Hk |]. split; [| reflexivity].
  rewrite fetchPdfText_trace, Hk. reflexivity.
Qed.

Lemma newClient_apiKey_witness :
  occurs "?" "wss://host/ws" = false
  /\ occurs "?" "K1" = false
  /\ apiKey (newClient (Some "wss://host/ws") "K1") = Some "K1".
Proof.
  assert (H1 : occurs "?" "wss://host/ws" = false) by reflexivity.
  assert (H2 : occurs "?" "K1" = false) by reflexivity.
  split; [exact H1 |]. split; [exact H2 |].
  exact (proj1 (newClient_apiKey sampleEnv (Some "wss://host/ws") "K1" JNull H1 H2)).
Defined.

(** ** The reason of a close *)

(** X5: The reason reported for a close is always the end of the reason
    received: the listener only ever drops a beginning of it. *)
Theorem closeReason_suffix (reason : string) :
  exists dropped, reason = dropped +:+ closeReason (Some reason).
Proof.
  unfold closeReason.
  destruct (includes (toLowerCase reason) "error"); [| exists EmptyString; reflexivity].
  destruct (indexOf "ERROR]" reason) as [[| i] |]; try (exists EmptyString; reflexivity).
  apply slice_suffix.
Qed.

(** X6: A reason made of some framing without the letter E, the prelude
    [ERROR]], one more character and a text is reported as the text alone;
    with no framing before the prelude it is reported whole. *)
Theorem closeReason_prelude (framing text : string) (ch : ascii) :
  occurs "E" framing = false ->
  closeReason (Some (framing +:+ "ERROR]" +:+ String ch text))
  = if String.eqb framing EmptyString
    then "ERROR]" +:+ String ch text
    else text.
Proof.
  intros Hf. unfold closeReason.
  assert (Hlow : includes (toLowerCase (framing +:+ "ERROR]" +:+ String ch text)) "error"
                 = true).
  { rewrite toLowerCase_append. apply includes_append. reflexivity. }
  rewrite Hlow. unfold indexOf.
  change "ERROR]" with (String "E" "RROR]") at 1 2.
  rewrite (indexOf_from_first "E" "RROR]" framing (String ch text) 0 Hf).
  destruct framing as [| f0 framing]; [reflexivity |].
  cbn [String.eqb String.length Nat.add].
  replace (S (String.length framing + 6 + 1))
    with (String.length (String f0 framing) + 7) by (cbn [String.length]; lia).
  rewrite slice_append. reflexivity.
Qed.

Lemma closeReason_prelude_witness :
  occurs "E" "[Gemini " = false
  /\ closeReason (Some "[Gemini ERROR] quota exceeded") = "quota exceeded".
Proof.
  assert (H : occurs "E" "[Gemini " = false) by reflexivity.
  split; [exact H |].
  exact (closeReason_prelude "[Gemini " "quota exceeded" " " H).
Defined.

(** ** The label of realtime input *)

Lemma scanChunks_flags (chunks : list GenerativeContentBlob) (a v : bool) :
  scanChunks chunks a v
  = (a || existsb (fun ch => includes (blob_mimeType ch) "audio") chunks,
     v || existsb (fun ch => includes (blob_mimeType ch) "image") chunks).
Proof.
  revert a v. induction chunks as [| ch rest IH]; intros a v.
  - cbn. rewrite !orb_false_r. reflexivity.
  - cbn [scanChunks existsb].
    destruct (includes (blob_mimeType ch) "audio"), (includes (blob_mimeType ch) "image"),
      a, v; cbn [andb orb]; rewrite ?IH; cbn [orb]; rewrite ?orb_true_r; reflexivity.
Qed.

(** X7: The label that [sendRealtimeInput] logs depends only on whether some
    chunk is audio and whether some chunk is an image: leaving the loop early
    never changes it. *)
Theorem realtimeLabel_mediaLabel (chunks : list GenerativeContentBlob) :
  realtimeLabel chunks = mediaLabel chunks.
Proof. unfold realtimeLabel, mediaLabel. rewrite scanChunks_flags. reflexivity. Qed.

(** ** Successful batches and foreign calls *)





Lemma checkCall_foreign (c : Client) (fc : FunctionCall) :
  String.eqb (fc_name fc) "pdf_lookup" = false ->
  checkCall c fc
  = ([Emit (EvLog "server.debug"); Emit (EvLog "server.debug")], Returned false).
Proof. intros Hn. unfold checkCall. rewrite Hn. reflexivity. Qed.

Lemma filterM_checkCall_foreign (c : Client) (fcs : list FunctionCall) :
  forallb (fun fc => negb (String.eqb (fc_name fc) "pdf_lookup")) fcs = true ->
  completion (filterM (checkCall c) fcs) = Returned []
  /\ sent (trace (filterM (checkCall c) fcs)) = []
  /\ fetched (trace (filterM (checkCall c) fcs)) = []
  /\ publishedToolCalls (trace (filterM (checkCall c) fcs)) = [].
Proof.
  induction fcs as [| fc rest IH]; intros Hall; [repeat split; reflexivity |].
  cbn [forallb] in Hall. apply andb_true_iff in Hall. destruct Hall as [Hfc Hrest].
  apply negb_true_iff in Hfc. destruct (IH Hrest) as (Hc & Hs & Hf & Hp).
  cbn [filterM]. rewrite (checkCall_foreign c fc Hfc), bind_returned.
  cbn [trace completion fst snd].
  rewrite completion_bind, trace_bind, Hc. cbn [ret trace completion fst snd].
  rewrite app_nil_r, sent_app, fetched_app, publishedToolCalls_app, Hs, Hf, Hp.
  repeat split; reflexivity.
Qed.

(** X9: A frame without code syntax whose calls are all for other functions is
    discarded silently, whatever the state of the client: nothing is sent,
    nothing is fetched, handling does not throw, and the raw tool call is
    still published once. *)
Theorem foreign_calls_discarded (env : Env) (c c' : Client) (tc : ToolCall) :
  hasCodeSyntax (stringify (json_of_ToolCallMessage tc)) = false ->
  forallb (fun fc => negb (String.eqb (fc_name fc) "pdf_lookup")) (functionCalls tc) = true ->
  let r := receive env c c' (ToolCallMessage tc) in
  completion r = Returned tt
  /\ sent (trace r) = []
  /\ fetched (trace r) = []
  /\ publishedToolCalls (trace r) = [tc].
Proof.
  intros Hclean Hall r. subst r. cbn [receive]. unfold receiveToolCall. rewrite Hclean.
  destruct (filterM_checkCall_foreign c (functionCalls tc) Hall) as (Hc & Hs & Hf & Hp).
  rewrite !completion_bind, !trace_bind. cbn [log emit tell trace completion fst snd].
  rewrite Hc. unfold executeCalls. cbn [length Nat.ltb Nat.leb].
  rewrite !sent_app, !fetched_app, !publishedToolCalls_app, Hs, Hf, Hp.
  repeat split; reflexivity.
Qed.

Lemma foreign_calls_discarded_witness :
  hasCodeSyntax (stringify (json_of_ToolCallMessage foreignFrame)) = false
  /\ sent (trace (receive sampleEnv unconnected unconnected (ToolCallMessage foreignFrame))) = [].
Proof.
  split; [vm_compute; reflexivity |].
  refine (proj1 (proj2 (foreign_calls_discarded sampleEnv unconnected unconnected
                          foreignFrame _ _))); vm_compute; reflexivity.
Defined.

(** ** Connecting and disconnecting *)

(** X10: [disconnect()] without a handle always leaves the client without a
    socket, closing the owned one if there was one, and keeps the stored
    config and the address; from then on a further [disconnect] does nothing
    and every send fails at once, without any effect. *)
Theorem disconnect_releases (c : Client) :
  let '(c1, closedOne, t) := disconnect c None in
  c1 = released c
  /\ closedOne = match ws c with Some _ => true | None => false end
  /\ closed t = match ws c with Some w => [w] | None => [] end
  /\ (forall arg, disconnect c1 arg = (c1, false, []))
  /\ (forall ps tc, send c1 ps tc = ([], Threw "WebSocket is not connected"))
  /\ (forall chunks, sendRealtimeInput c1 chunks = ([], Threw "WebSocket is not connected"))
  /\ (forall frs, sendToolResponse c1 frs = ([], Threw "WebSocket is not connected")).
Proof.
  unfold disconnect, released.
  destruct c as [[w |] cfg u]; cbn [ws config url]; repeat split; try reflexivity;
    intros; destruct arg; reflexivity.
Qed.

(** X11: When the socket of a connection attempt opens, the client takes it over
    and sends exactly one message on it, the setup frame with the config it
    was given, and the promise resolves; the socket is then the one that
    [disconnect] closes. *)
Theorem handshake_on_open (c : Client) (cfg : loc) (w : WebSocket) (evType : string) :
  let '(c1, p1, t1) := connect c (Some cfg) w in
  let '(c2, p2, t2) := onOpen c1 w evType in
  p1 = Pending
  /\ p2 = Resolved true
  /\ ws c2 = Some w
  /\ opened (t1 ++ t2) = [w]
  /\ sent (t1 ++ t2) = [SetupMessage cfg]
  /\ sentOn (t1 ++ t2) = [w]
  /\ closed (t1 ++ t2) = []
  /\ disconnect c2 (Some w)
     = (released c2, true, [WsClose w; Emit (EvLog "client.close")]).
Proof.
  unfold connect, onOpen, disconnect, released; cbn [ws config url].
  rewrite Nat.eqb_refl. repeat split; reflexivity.
Qed.

(** X12: [connect] with no config still creates the socket, but when it opens the
    promise is rejected, nothing is sent and the client does not take the
    socket over: the socket is left open and no [disconnect] closes it. *)
Theorem open_without_config (c : Client) (w : WebSocket) (evType : string) :
  ws c <> Some w ->
  let '(c1, _, t1) := connect c None w in
  let '(c2, p2, t2) := onOpen c1 w evType in
  p2 = Rejected "Invalid config sent to `connect(config)`"
  /\ opened (t1 ++ t2) = [w]
  /\ sent (t1 ++ t2) = []
  /\ closed (t1 ++ t2) = []
  /\ ws c2 = ws c
  /\ forall arg, ~ In w (closed (snd (disconnect c2 arg))).
Proof.
  intros Hne. unfold connect, onOpen; cbn [ws config url].
  repeat split; try reflexivity.
  intros arg. unfold disconnect; cbn [ws].
  destruct (ws c) as [owned |]; [| intros []].
  destruct (match arg with Some given => Nat.eqb owned given | None => true end);
    cbn; [| intros []].
  intros [-> | []]. apply Hne. reflexivity.
Qed.

Lemma open_without_config_witness :
  ws unconnected <> Some 7
  /\ snd (fst (onOpen (fst (fst (connect unconnected None 7))) 7 "open"))
     = Rejected "Invalid config sent to `connect(config)`".
Proof.
  assert (H : ws unconnected <> Some 7) by (cbn; congruence).
  split; [exact H |].
  exact (proj1 (open_without_config unconnected 7 "open" H)).
Defined.

(** X13: [connect] does not close the socket the client already owns: once the new
    socket has opened the client owns the new one, the old one has not been
    closed, and nothing the client does afterwards closes it, neither
    [disconnect] nor the close listener of the old socket, which leaves the
    new socket owned. *)
Theorem reconnect_keeps_old_socket_open (c : Client) (cfg : loc) (old w : WebSocket)
        (evType : string) :
  ws c = Some old -> old <> w ->
  let '(c1, _, t1) := connect c (Some cfg) w in
  let '(c2, _, t2) := onOpen c1 w evType in
  ws c2 = Some w
  /\ closed (t1 ++ t2) = []
  /\ (forall arg, ~ In old (closed (snd (disconnect c2 arg))))
  /\ onClose c2 old "close" = (c2, [Emit (EvLog "server.close"); Emit EvClose]).
Proof.
  intros Hold Hne. unfold connect, onOpen; cbn [ws config url].
  assert (Hneq : Nat.eqb w old = false) by (apply Nat.eqb_neq; congruence).
  repeat split.
  - intros arg. unfold disconnect; cbn [ws].
    destruct (match arg with Some given => Nat.eqb w given | None => true end);
      cbn; [| intros []].
    intros [-> | []]. apply Hne. reflexivity.
  - unfold onClose, disconnect; cbn [ws]. rewrite Hneq. reflexivity.
Qed.

Lemma reconnect_keeps_old_socket_open_witness :
  ws connected = Some 1 /\ 1 <> 2
  /\ closed (snd (connect connected (Some 1%positive) 2)
             ++ snd (onOpen (fst (fst (connect connected (Some 1%positive) 2))) 2 "open"))
     = [].
Proof.
  assert (H1 : ws connected = Some 1) by reflexivity.
  assert (H2 : 1 <> 2) by lia.
  split; [exact H1 |]. split; [exact H2 |].
  exact (proj1 (proj2 (reconnect_keeps_old_socket_open connected 1%positive 1 2 "open" H1 H2))).
Defined.

(** ** What the syntax guard cannot miss *)

Lemma includes_join (sep p x : string) (xs : list string) :
  In x xs -> includes x p = true -> includes (join sep xs) p = true.
Proof.
  intros Hin Hx. induction xs as [| y rest IH]; [destruct Hin |].
  destruct rest as [| z rest].
  - destruct Hin as [-> | []]. exact Hx.
  - change (join sep (y :: z :: rest)) with (y +:+ sep +:+ join sep (z :: rest)).
    destruct Hin as [-> | Hin].
    + apply includes_append_l, Hx.
    + apply includes_append_r, includes_append_r, IH, Hin.
Qed.

Lemma hasCodeSyntax_append_l (x z : string) :
  hasCodeSyntax x = true -> hasCodeSyntax (x +:+ z) = true.
Proof.
  unfold hasCodeSyntax. rewrite !orb_true_iff.
  intros [[[H | H] | H] | H]; rewrite (includes_append_l _ z _ H); auto.
Qed.

Lemma hasCodeSyntax_append_r (x y : string) :
  hasCodeSyntax y = true -> hasCodeSyntax (x +:+ y) = true.
Proof.
  unfold hasCodeSyntax. rewrite !orb_true_iff.
  intros [[[H | H] | H] | H]; rewrite (includes_append_r x _ _ H); auto.
Qed.

Lemma hasCodeSyntax_join (sep x : string) (xs : list string) :
  In x xs -> hasCodeSyntax x = true -> hasCodeSyntax (join sep xs) = true.
Proof.
  unfold hasCodeSyntax. rewrite !orb_true_iff.
  intros Hin [[[H | H] | H] | H]; rewrite (includes_join sep _ x xs Hin H); auto.
Qed.

Lemma prefix_escape (p s : string) :
  plain p = true -> String.prefix p s = true -> String.prefix p (escape s) = true.
Proof.
  revert s. induction p as [| a p IH]; intros s Hplain Hp; [destruct (escape s); reflexivity |].
  destruct s as [| b s]; [discriminate Hp |].
  cbn [plain] in Hplain. apply andb_true_iff in Hplain. destruct Hplain as [Ha Hplain].
  cbn [String.prefix] in Hp. destruct (ascii_dec a b) as [<- | _]; [| discriminate Hp].
  cbn [escape]. apply String.eqb_eq in Ha. rewrite Ha, append_cons.
  cbn [String.prefix]. destruct (ascii_dec a a); [apply IH; assumption | congruence].
Qed.

Lemma includes_escape (p s : string) :
  plain p = true -> includes s p = true -> includes (escape s) p = true.
Proof.
  intros Hplain. induction s as [| ch s IH]; intros Hs.
  - cbn [includes] in Hs. rewrite orb_false_r in Hs.
    destruct p; [reflexivity | discriminate Hs].
  - cbn [includes] in Hs. apply orb_true_iff in Hs. destruct Hs as [Hs | Hs].
    + exact (includes_append EmptyString _ p (prefix_escape p (String ch s) Hplain Hs)).
    + cbn [escape]. apply includes_append_r, IH, Hs.
Qed.

Lemma hasCodeSyntax_escape (s : string) :
  hasCodeSyntax s = true -> hasCodeSyntax (escape s) = true.
Proof.
  unfold hasCodeSyntax. rewrite !orb_true_iff.
  intros [[[H | H] | H] | H].
  - rewrite (includes_escape "executableCode" s eq_refl H). auto.
  - rewrite (includes_escape "print(" s eq_refl H). auto.
  - rewrite (includes_escape "PYTHON" s eq_refl H). auto.
  - rewrite (includes_escape "code>" s eq_refl H). auto.
Qed.

(** X14: A model turn with a text part whose text contains one of the markers of
    code syntax is always caught by the guard, wherever the part stands in
    the turn and whatever the other parts are. *)
Theorem guard_catches_text (ps : list Part) (text : string) :
  In (TextPart text) ps ->
  hasCodeSyntax text = true ->
  hasCodeSyntax (stringify (json_of_parts ps)) = true.
Proof.
  intros Hin Htext. unfold json_of_parts. cbn [stringify].
  apply hasCodeSyntax_append_r, hasCodeSyntax_append_l.
  apply (hasCodeSyntax_join "," (stringify (json_of_Part (TextPart text)))).
  - rewrite map_map. apply (in_map (fun p => stringify (json_of_Part p)) ps _ Hin).
  - cbn [json_of_Part stringify map join]. unfold quote at 2.
    apply hasCodeSyntax_append_r, hasCodeSyntax_append_l.
    apply hasCodeSyntax_append_r, hasCodeSyntax_append_r, hasCodeSyntax_append_r.
    apply hasCodeSyntax_append_l, hasCodeSyntax_escape, Htext.
Qed.

Lemma guard_catches_text_witness :
  In (TextPart "print(1)") codeTurn
  /\ hasCodeSyntax "print(1)" = true
  /\ hasCodeSyntax (stringify (json_of_parts codeTurn)) = true.
Proof.
  assert (H1 : In (TextPart "print(1)") codeTurn) by (left; reflexivity).
  assert (H2 : hasCodeSyntax "print(1)" = true) by reflexivity.
  split; [exact H1 |]. split; [exact H2 |].
  exact (guard_catches_text codeTurn "print(1)" H1 H2).
Defined.

(** X15: The guard on the whole frame covers every call: when the serialized
    arguments of a call of the frame contain one of the four markers, the
    frame is rejected as a whole, so no call of it is validated on its own or
    fetched, whatever the state of the client. *)
Theorem guard_covers_calls (env : Env) (c c' : Client) (tc : ToolCall) (fc : FunctionCall) :
  In fc (functionCalls tc) ->
  hasCodeSyntax (stringify (fc_args fc)) = true ->
  hasCodeSyntax (stringify (json_of_ToolCallMessage tc)) = true
  /\ fetched (trace (receive env c c' (ToolCallMessage tc))) = []
  /\ publishedToolCalls (trace (receive env c c' (ToolCallMessage tc))) = []
  /\ forall fr, In fr (responseEntries (trace (receive env c c' (ToolCallMessage tc)))) ->
                fr = {| fr_id := firstIdOrError tc; fr_response := codeSyntaxResponse |}.
Proof.
  intros Hin Hargs.
  assert (Hframe : hasCodeSyntax (stringify (json_of_ToolCallMessage tc)) = true).
  { unfold json_of_ToolCallMessage. cbn [stringify map join].
    apply hasCodeSyntax_append_r, hasCodeSyntax_append_l.
    apply hasCodeSyntax_append_r, hasCodeSyntax_append_r.
    apply hasCodeSyntax_append_r, hasCodeSyntax_append_l.
    apply hasCodeSyntax_append_r, hasCodeSyntax_append_r.
    apply hasCodeSyntax_append_r, hasCodeSyntax_append_l.
    apply (hasCodeSyntax_join "," (stringify (json_of_FunctionCall fc))).
    - rewrite map_map. apply (in_map (fun q => stringify (json_of_FunctionCall q)) _ _ Hin).
    - unfold json_of_FunctionCall. cbn [stringify map].
      apply hasCodeSyntax_append_r, hasCodeSyntax_append_l.
      change (join "," [?a; ?b; ?c]) with (a +:+ "," +:+ b +:+ "," +:+ c).
      apply hasCodeSyntax_append_r, hasCodeSyntax_append_r.
      apply hasCodeSyntax_append_r, hasCodeSyntax_append_r.
      apply hasCodeSyntax_append_r, hasCodeSyntax_append_r, Hargs. }
  split; [exact Hframe |]. cbn [receive]. unfold receiveToolCall. rewrite Hframe.
  destruct (ws c) as [w |] eqn:Hw.
  - rewrite (sendToolResponse_connected c w Hw). cbn.
    repeat split; try reflexivity. intros fr [<- | []]. reflexivity.
  - rewrite (sendToolResponse_unconnected c _ Hw). cbn.
    repeat split; try reflexivity. intros fr [].
Qed.

Lemma guard_covers_calls_witness :
  In printCall (functionCalls markedFrame)
  /\ hasCodeSyntax (stringify (fc_args printCall)) = true
  /\ hasCodeSyntax (stringify (json_of_ToolCallMessage markedFrame)) = true.
Proof.
  assert (H1 : In printCall (functionCalls markedFrame)) by (right; left; reflexivity).
  assert (H2 : hasCodeSyntax (stringify (fc_args printCall)) = true) by (vm_compute; reflexivity).
  split; [exact H1 |]. split; [exact H2 |].
  exact (proj1 (guard_covers_calls sampleEnv connected connected markedFrame printCall H1 H2)).
Defined.

(** * Properties of the configuration and of the hook *)

Section NumbersFacts.
Context {number : Type} (Number : option string -> number) (isFalsy : number -> bool).

(** X16: [getEnvConfig] throws, naming the variable, exactly when
    [REACT_APP_GEMINI_MODEL] is unset or empty; otherwise it returns the value
    of the variable as the model, and a temperature and a token limit that are
    never a falsy number (a 0 or an unreadable value is left out). *)
Theorem getEnvConfig_model (env : gmap string string) :
  match env !! "REACT_APP_GEMINI_MODEL" with
  | Some (String ch m) =>
      exists cfg,
        getEnvConfig number Number isFalsy env = Returned cfg
        /\ env_model cfg = String ch m
        /\ (forall t, env_temperature cfg = Some t -> isFalsy t = false)
        /\ (forall n, env_maxOutputTokens cfg = Some n -> isFalsy n = false)
  | _ =>
      getEnvConfig number Number isFalsy env
      = Threw "Missing required environment variables: REACT_APP_GEMINI_MODEL"
  end.
Proof.
  unfold getEnvConfig, validateEnv, requiredEnvVars. cbn [List.filter].
  destruct (env !! "REACT_APP_GEMINI_MODEL") as [[| ch m] |] eqn:Hm; try reflexivity.
  eexists. split; [reflexivity |]. cbn [env_model env_temperature env_maxOutputTokens].
  split; [reflexivity |].
  unfold numberOrUndefined. split; intros x;
    match goal with |- context [isFalsy ?v] => destruct (isFalsy v) eqn:Hf end;
    intros [= <-]; exact Hf.
Qed.

(** X17: The hook accepts a config exactly when it is set, declares its tools, one
    of the tools declares a function named [pdf_lookup], and the first part of
    its system instruction is a text that is not empty. *)
Theorem validateConfig_accepts (config : option (LiveConfig number)) (cfg : LiveConfig number) :
  validateConfig config = Returned cfg
  <-> config = Some cfg
      /\ (exists tools fds fd,
             lc_tools cfg = Some tools
             /\ In (FunctionDeclarationsTool (Some fds)) tools
             /\ In fd fds /\ fd_name fd = "pdf_lookup")
      /\ (exists text rest,
             lc_systemInstruction cfg = Some (TextPart (String (fst text) (snd text)) :: rest)).
Proof.
  unfold validateConfig, hasInstructionText. split.
  - destruct config as [cfg0 |]; [| discriminate].
    destruct (lc_tools cfg0) as [tools |] eqn:Htools; [| discriminate].
    destruct (find declaresPdfLookup tools) as [tool |] eqn:Hfind; [| discriminate].
    destruct (lc_systemInstruction cfg0) as [[| [text | |] rest] |] eqn:Hsys; try discriminate.
    destruct text as [| ch text]; [discriminate |]. cbn. intros [= <-].
    split; [reflexivity |]. split.
    + apply find_some in Hfind. destruct Hfind as [Hin Hdecl].
      destruct tool as [[fds |] | |]; try discriminate Hdecl.
      cbn [declaresPdfLookup] in Hdecl. apply existsb_exists in Hdecl.
      destruct Hdecl as (fd & Hfd & Hname). apply String.eqb_eq in Hname.
      exists tools, fds, fd. rewrite Htools. auto.
    + exists (ch, text), rest. exact Hsys.
  - intros (-> & (tools & fds & fd & Htools & Hin & Hfd & Hname) & ([ch text] & rest & Hsys)).
    rewrite Htools, Hsys. cbn [fst snd String.eqb negb].
    destruct (find declaresPdfLookup tools) as [tool |] eqn:Hfind; [reflexivity |].
    exfalso. apply (find_none _ _ Hfind) in Hin. cbn [declaresPdfLookup] in Hin.
    assert (Hex : existsb (fun q => String.eqb (fd_name q) "pdf_lookup") fds = true).
    { apply existsb_exists. exists fd. split; [exact Hfd | apply String.eqb_eq, Hname]. }
    congruence.
Qed.

(** X18: [connect] of the hook with a config that fails the checks throws before
    it touches anything: no effect, and the client and the flag are as they
    were.  With a valid config it first closes and releases the socket the
    client owns, then creates the new one; nothing is sent yet, and the flag
    is not changed before the connection is established. *)
Theorem hookConnect_start (st : LiveAPI) (given : option (loc * LiveConfig number))
        (w : WebSocket) :
  match validateConfig (option_map snd given) with
  | Threw e => hookConnect st given w = (st, [], Threw e)
  | Returned _ =>
      let '(st1, t, r) := hookConnect st given w in
      r = Returned Pending
      /\ ws (api_client st1) = None
      /\ config (api_client st1) = option_map fst given
      /\ api_connected st1 = api_connected st
      /\ t = match ws (api_client st) with
             | Some old => [WsClose old; Emit (EvLog "client.close")]
             | None => []
             end ++ [WsNew w (url (api_client st))]
      /\ sent t = []
  end.
Proof.
  unfold hookConnect. destruct (validateConfig (option_map snd given)); [| reflexivity].
  unfold disconnect, connect. destruct (ws (api_client st)) as [old |] eqn:Hws;
    cbn [ws config url api_client api_connected]; rewrite ?Hws; repeat split; reflexivity.
Qed.

(** X19: The session config that the control tray builds from an uploaded PDF
    declares no tools, so [connect] of the hook rejects every such config
    with the error about the tools, and creates no socket. *)
Theorem configurePdfSession_rejected (env : gmap string string) (pdfData : option string)
        (cfg : LiveConfig number) (st : LiveAPI) (ref : loc) (w : WebSocket) :
  configurePdfSession number Number isFalsy env pdfData = Some cfg ->
  validateConfig (Some cfg) = Threw "Tools configuration is required"
  /\ hookConnect st (Some (ref, cfg)) w = (st, [], Threw "Tools configuration is required")
  /\ exists data rest,
       pdfData = Some data
       /\ lc_systemInstruction cfg = Some (rest ++ [InlineDataPart "application/pdf" data]).
Proof.
  unfold configurePdfSession. destruct pdfData as [data |]; [| discriminate].
  destruct (String.eqb data EmptyString); [discriminate |].
  destruct (getEnvConfig number Number isFalsy env) as [envConfig | e]; [| discriminate].
  intros [= <-]. split; [reflexivity |]. split; [reflexivity |].
  exists data. eexists [_]. split; reflexivity.
Qed.
End NumbersFacts.

Lemma configurePdfSession_rejected_witness :
  exists cfg,
    configurePdfSession nat sampleNumber (Nat.eqb 0) sampleProcessEnv (Some "JVBERi0=") = Some cfg
    /\ validateConfig (Some cfg) = Threw "Tools configuration is required".
Proof.
  eexists. split; [vm_compute; reflexivity |].
  refine (proj1 (configurePdfSession_rejected sampleNumber (Nat.eqb 0) sampleProcessEnv
                   (Some "JVBERi0=") _ sampleApi 1%positive 2 _)).
  vm_compute; reflexivity.
Defined.

(** X20: When the hook reconnects, a close event of the previous socket that
    arrives after the new connection is established marks the hook as
    disconnected, although the client still owns the new socket, which is
    not closed. *)
Theorem stale_close_marks_disconnected (st : LiveAPI) (ref : loc) (cfg : LiveConfig nat)
        (old w : WebSocket) :
  ws (api_client st) = Some old -> old <> w ->
  validateConfig (Some cfg) = Returned cfg ->
  let '(st1, t1, _) := hookConnect st (Some (ref, cfg)) w in
  let '(st2, p, t2) := socketOpened st1 w in
  let '(st3, _) := hookConnected st2 p in
  let '(st4, t4) := socketClosed st3 old in
  closed t1 = [old]
  /\ api_connected st3 = true
  /\ ws (api_client st3) = Some w
  /\ api_connected st4 = false
  /\ ws (api_client st4) = Some w
  /\ closed (t2 ++ t4) = [].
Proof.
  intros Hold Hne Hvalid. unfold hookConnect. cbn [option_map snd fst]. rewrite Hvalid.
  unfold disconnect, connect. rewrite Hold. cbn [ws config url api_client api_connected].
  unfold socketOpened, onOpen. cbn [ws config url api_client api_connected].
  unfold hookConnected, socketClosed, onClose, disconnect, hookOnClose.
  cbn [ws config url api_client api_connected].
  assert (Hneq : Nat.eqb w old = false) by (apply Nat.eqb_neq; congruence).
  rewrite Hneq. cbn [ws config url api_client api_connected]. repeat split; reflexivity.
Qed.

Lemma stale_close_marks_disconnected_witness :
  ws (api_client sampleApi) = Some 1 /\ 1 <> 2
  /\ validateConfig (Some sampleLiveConfig) = Returned sampleLiveConfig
  /\ closed (snd (fst (hookConnect sampleApi (Some (1%positive, sampleLiveConfig)) 2))) = [1].
Proof.
  assert (H1 : ws (api_client sampleApi) = Some 1) by reflexivity.
  assert (H2 : 1 <> 2) by lia.
  assert (H3 : validateConfig (Some sampleLiveConfig) = Returned sampleLiveConfig)
    by reflexivity.
  split; [exact H1 |]. split; [exact H2 |]. split; [exact H3 |].
  exact (proj1 (stale_close_marks_disconnected sampleApi 1%positive sampleLiveConfig 1 2
                  H1 H2 H3)).
Defined.

(** * Properties of the upload widgets *)

Lemma readFileAsBase64_returned (r : ReadResult) (data : string) :
  readFileAsBase64 r = Returned data ->
  exists dataUrl,
    r = ReadLoaded (Some dataUrl)
    /\ nth_error (split "," dataUrl) 1 = Some data
    /\ data <> EmptyString.
Proof.
  unfold readFileAsBase64. destruct r as [[dataUrl |] |]; try discriminate.
  destruct (nth_error (split "," dataUrl) 1) as [d |] eqn:Hd; [| discriminate].
  destruct (String.eqb d EmptyString) eqn:He; [discriminate |].
  intros [= <-]. exists dataUrl. repeat split; [exact Hd |].
  intros ->. discriminate He.
Qed.

(** X21: The side panel sends a file only when it should: whatever is chosen and
    however reading it ends, a message is put on a socket only for a file of
    type [application/pdf] of at most 10 MiB whose data URL has a payload that
    is not empty after its first comma, and then on the socket the client
    owns, as one realtime chunk of type [application/pdf] with that payload. *)
Theorem sidePanelUpload_guard (c : Client) (file : option File) (r : ReadResult)
        (w : WebSocket) (m : OutboundMessage) :
  In (WsSend w m) (clientEffects (sidePanelUpload c file r)) ->
  exists f dataUrl data,
    file = Some f
    /\ file_type f = "application/pdf"
    /\ (file_size f <= MAX_FILE_SIZE)%N
    /\ r = ReadLoaded (Some dataUrl)
    /\ nth_error (split "," dataUrl) 1 = Some data
    /\ data <> EmptyString
    /\ ws c = Some w
    /\ m = RealtimeInputMessage [pdfChunk data].
Proof.
  unfold sidePanelUpload, handleChange.
  destruct file as [f |]; [| intros []].
  destruct (N.ltb MAX_FILE_SIZE (file_size f)) eqn:Hsize; [cbn; tauto |].
  destruct (String.eqb (file_type f) "application/pdf") eqn:Htype; [| cbn; tauto].
  apply N.ltb_ge in Hsize. apply String.eqb_eq in Htype. cbn [negb].
  destruct (readFileAsBase64 r) as [data | e] eqn:Hread; [| cbn; tauto].
  destruct (readFileAsBase64_returned r data Hread) as (dataUrl & -> & Hnth & Hdata).
  unfold liftClient, sendRealtimeInput, _sendDirect.
  destruct (ws c) as [owned |] eqn:Hw; cbn; [| tauto].
  intros [H | [H | []]]; [| discriminate H].
  injection H as <- <-.
  exists f, dataUrl, data. repeat split; assumption.
Qed.

Lemma sidePanelUpload_guard_witness :
  In (WsSend 1 (RealtimeInputMessage [pdfChunk "JVBERi0="]))
     (clientEffects (sidePanelUpload connected (Some largestPdf)
                       (ReadLoaded (Some "data:application/pdf;base64,JVBERi0="))))
  /\ ws connected = Some 1.
Proof.
  assert (H : In (WsSend 1 (RealtimeInputMessage [pdfChunk "JVBERi0="]))
                (clientEffects (sidePanelUpload connected (Some largestPdf)
                                  (ReadLoaded (Some "data:application/pdf;base64,JVBERi0="))))).
  { vm_compute. left. reflexivity. }
  split; [exact H |].
  destruct (sidePanelUpload_guard connected (Some largestPdf) _ 1 _ H)
    as (f & dataUrl & data & _ & _ & _ & _ & _ & _ & Hw & _).
  exact Hw.
Defined.

(** X22: A PDF of at most 10 MiB chosen in the side panel of a connected client,
    read as a data URL with one comma between a header and a payload that is
    not empty, is sent once, with exactly that payload; the processing flag is
    set for the time of the upload and cleared at the end. *)
Theorem sidePanelUpload_sends_payload (c : Client) (w : WebSocket) (f : File)
        (header payload : string) :
  ws c = Some w ->
  file_type f = "application/pdf" ->
  (file_size f <= MAX_FILE_SIZE)%N ->
  occurs "," header = false -> occurs "," payload = false ->
  payload <> EmptyString ->
  sidePanelUpload c (Some f) (ReadLoaded (Some (header +:+ "," +:+ payload)))
  = [ResetInput; SetIsProcessingPDF true; ReadAsDataURL f; OnPDFSelect payload;
     ClientDid (WsSend w (RealtimeInputMessage [pdfChunk payload]));
     ClientDid (Emit (EvLog "client.realtimeInput"));
     SetIsProcessingPDF false].
Proof.
  intros Hw Htype Hsize Hh Hp Hne.
  unfold sidePanelUpload, handleChange, readFileAsBase64.
  apply N.ltb_ge in Hsize. rewrite Hsize, Htype. cbn [String.eqb Ascii.eqb Bool.eqb negb].
  change "," with (String "," EmptyString) at 1.
  rewrite (split_once "," EmptyString header payload Hh Hp). cbn [nth_error].
  destruct (String.eqb payload EmptyString) eqn:He;
    [apply String.eqb_eq in He; contradiction |].
  unfold liftClient, sendRealtimeInput, _sendDirect. rewrite Hw. reflexivity.
Qed.

Lemma sidePanelUpload_sends_payload_witness :
  ws connected = Some 1
  /\ sent (clientEffects (sidePanelUpload connected (Some largestPdf)
                            (ReadLoaded (Some ("data:application/pdf;base64" +:+ ","
                                               +:+ "JVBERi0=")))))
     = [RealtimeInputMessage [pdfChunk "JVBERi0="]].
Proof.
  split; [reflexivity |].
  assert (Hsize : (file_size largestPdf <= MAX_FILE_SIZE)%N) by (vm_compute; discriminate).
  assert (Hne : "JVBERi0=" <> EmptyString) by discriminate.
  rewrite (sidePanelUpload_sends_payload connected 1 largestPdf
             "data:application/pdf;base64" "JVBERi0="
             eq_refl eq_refl Hsize eq_refl eq_refl Hne).
  reflexivity.
Defined.

Lemma processingAfter_last (t : list UiEffect) (b b' : bool) :
  processingAfter (t ++ [SetIsProcessingPDF b']) b = b'.
Proof.
  revert b. induction t as [| e t IH]; intros b; [reflexivity |].
  destruct e; cbn [app processingAfter]; apply IH.
Qed.

(** X23: The upload button never stays in its processing state: whatever file is
    chosen, however reading it ends and whatever the [onPDFSelect] prop does,
    even when it throws, the flag is cleared when [handleChange] is done. *)
Theorem handleChange_clears_flag (onPDFSelect : string -> list UiEffect * Completion unit)
        (file : option File) (r : ReadResult) :
  processingAfter (handleChange onPDFSelect file r) false = false.
Proof.
  unfold handleChange. destruct file as [f |]; [| reflexivity].
  destruct (N.ltb MAX_FILE_SIZE (file_size f)); [reflexivity |].
  destruct (negb (String.eqb (file_type f) "application/pdf")); [reflexivity |].
  cbn [processingAfter]. apply processingAfter_last.
Qed.

(** X24: The control tray keeps as PDF data only the payload, not empty, of a file
    of type [application/pdf] of at most 10 MiB. *)
Theorem controlTrayUpload_guard (file : option File) (r : ReadResult) (data : string) :
  In (SetPdfData data) (controlTrayUpload file r) ->
  exists f dataUrl,
    file = Some f
    /\ file_type f = "application/pdf"
    /\ (file_size f <= MAX_FILE_SIZE)%N
    /\ r = ReadLoaded (Some dataUrl)
    /\ nth_error (split "," dataUrl) 1 = Some data
    /\ data <> EmptyString.
Proof.
  unfold controlTrayUpload, handleChange.
  destruct file as [f |]; [| intros []].
  destruct (N.ltb MAX_FILE_SIZE (file_size f)) eqn:Hsize;
    [cbn; intros [H | [H | []]]; discriminate H |].
  destruct (String.eqb (file_type f) "application/pdf") eqn:Htype;
    [| cbn; intros [H | [H | []]]; discriminate H].
  apply N.ltb_ge in Hsize. apply String.eqb_eq in Htype. cbn [negb].
  destruct (readFileAsBase64 r) as [d | e] eqn:Hread.
  - destruct (readFileAsBase64_returned r d Hread) as (dataUrl & -> & Hnth & Hd).
    cbn. intros [H | [H | [H | [H | [H | [H | []]]]]]]; try discriminate H.
    injection H as <-. exists f, dataUrl. repeat split; assumption.
  - cbn. intros [H | [H | [H | [H | [H | []]]]]]; discriminate H.
Qed.

Lemma controlTrayUpload_guard_witness :
  In (SetPdfData "JVBERi0=")
     (controlTrayUpload (Some largestPdf) (ReadLoaded (Some "data:application/pdf;base64,JVBERi0=")))
  /\ (file_size largestPdf <= MAX_FILE_SIZE)%N.
Proof.
  assert (H : In (SetPdfData "JVBERi0=")
                (controlTrayUpload (Some largestPdf)
                   (ReadLoaded (Some "data:application/pdf;base64,JVBERi0=")))).
  { vm_compute. right. right. right. right. left. reflexivity. }
  split; [exact H |].
  destruct (controlTrayUpload_guard _ _ _ H) as (f & dataUrl & Hf & _ & Hsize & _).
  injection Hf as <-. exact Hsize.
Defined.

(** Goes through the effects of a run for the one named in [H]. *)
Ltac called H :=
  repeat match type of H with _ \/ _ => destruct H as [H | H] end;
  try contradiction; try discriminate H.

(** X25: For a chosen file, [handleFileUpload] calls [onUploadComplete] at most
    once, with a name made of the clock and the file name, and only after the
    text read from the file has been sent as one user turn on the socket the
    client owns.  It calls [onError] at most once, and then either nothing
    has been sent (no key in the address, or no socket) or
    [onUploadComplete] has thrown: in that case [onError] follows it although
    the text has been sent.  When the read of the file is started and
    fails, neither prop is called and nothing is sent. *)
Theorem handleFileUpload_callbacks (c : Client)
        (onUploadComplete : option (string -> Completion unit)) (onError : bool)
        (f : File) (read : option string) (now : Z) :
  let t := handleFileUpload c onUploadComplete onError (Some f) read now in
  let tempUri := "pdf-" +:+ pretty now +:+ "-" +:+ file_name f in
  (forall uri, In (OnUploadComplete uri) t ->
     uri = tempUri
     /\ exists textContent w,
          read = Some textContent
          /\ ws c = Some w
          /\ clientEffects t
             = [WsSend w (ClientContentMessage
                            [{| role := "user";
                                parts := [TextPart ("PDF Content from " +:+ file_name f +:+ ":"
                                                    +:+ nl +:+ nl +:+ textContent)] |}] true);
                Emit (EvLog "client.send")])
  /\ (forall e, In (OnError e) t ->
        onError = true
        /\ (sent (clientEffects t) = []
            \/ exists prop, onUploadComplete = Some prop /\ prop tempUri = Threw e))
  /\ (exists e,
        uploadCallbacks t = []
        \/ uploadCallbacks t = [OnUploadComplete tempUri]
        \/ uploadCallbacks t = [OnError e]
        \/ uploadCallbacks t = [OnUploadComplete tempUri; OnError e])
  /\ (read = None -> In (ReadAsText f) t ->
      uploadCallbacks t = [] /\ clientEffects t = []).
Proof.
  unfold handleFileUpload.
  destruct (apiKey c) as [key |]; [destruct (String.eqb key EmptyString) |].
  1,3: destruct onError; cbn; (split; [| split; [| split]]);
    [ intros uri H; called H
    | intros e H; called H; auto
    | exists "API key not available"; auto
    | intros _ H; called H
    | intros uri H; called H
    | intros e H; called H
    | exists EmptyString; auto
    | intros _ H; called H ].
  destruct read as [textContent |];
    [| cbn; (split; [| split; [| split]]);
       [ intros uri H; called H
       | intros e H; called H
       | exists EmptyString; auto
       | auto ] ].
  unfold liftClient, send, _sendDirect.
  destruct (ws c) as [w |] eqn:Hw; cbn.
  - destruct onUploadComplete as [prop |]; cbn.
    + destruct (prop _) as [[] | e'] eqn:Hprop; [| destruct onError]; cbn;
        (split; [| split; [| split]]); try (intros Hread; discriminate Hread).
      * intros uri H. called H. injection H as <-.
        split; [reflexivity | exists textContent, w; auto].
      * intros e H. called H.
      * exists EmptyString. auto.
      * intros uri H. called H. injection H as <-.
        split; [reflexivity | exists textContent, w; auto].
      * intros e H. called H. injection H as <-.
        split; [reflexivity | right; exists prop; auto].
      * exists e'. auto.
      * intros uri H. called H. injection H as <-.
        split; [reflexivity | exists textContent, w; auto].
      * intros e H. called H.
      * exists EmptyString. auto.
    + (split; [| split; [| split]]); try (intros Hread; discriminate Hread).
      * intros uri H. called H.
      * intros e H. called H.
      * exists EmptyString. auto.
  - destruct onError; cbn; (split; [| split; [| split]]);
      try (intros Hread; discriminate Hread).
    + intros uri H. called H.
    + intros e H. called H. auto.
    + exists "WebSocket is not connected". auto.
    + intros uri H. called H.
    + intros e H. called H.
    + exists EmptyString. auto.
Qed.

Lemma handleFileUpload_callbacks_witness :
  In (OnUploadComplete "pdf-7-report.pdf")
     (handleFileUpload connected (Some (fun _ => Threw "refused")) true
        (Some largestPdf) (Some "%PDF") 7)
  /\ sent (clientEffects
             (handleFileUpload connected (Some (fun _ => Threw "refused")) true
                (Some largestPdf) (Some "%PDF") 7))
     = [ClientContentMessage
          [{| role := "user";
              parts := [TextPart ("PDF Content from report.pdf:" +:+ nl +:+ nl +:+ "%PDF")] |}]
          true].
Proof.
  assert (H : In (OnUploadComplete "pdf-7-report.pdf")
                (handleFileUpload connected (Some (fun _ => Threw "refused")) true
                   (Some largestPdf) (Some "%PDF") 7)).
  { vm_compute. right. right. right. left. reflexivity. }
  split; [exact H |].
  destruct (proj1 (handleFileUpload_callbacks connected (Some (fun _ => Threw "refused")) true
                     largestPdf (Some "%PDF") 7) _ H)
    as (_ & textContent & w & Hread & _ & ->).
  injection Hread as <-. reflexivity.
Defined.

(** * Further properties of the gatekeeper *)

(** X26: The calls that pass the validation are exactly the calls of [pdf_lookup]
    whose arguments are a mapping with the single key [pdfUri], bound to a
    truthy value, and whose serialization contains none of the invalid
    patterns. *)
Theorem validCall_shape (fc : FunctionCall) :
  validCall fc = true
  <-> fc_name fc = "pdf_lookup"
      /\ exists uri,
           fc_args fc = JObj [("pdfUri", uri)]
           /\ truthy (Some uri) = true
           /\ hasInvalidPattern (stringify (fc_args fc)) = false.
Proof.
  unfold validCall. split.
  - intros H. apply andb_true_iff in H. destruct H as [Hname H].
    apply String.eqb_eq in Hname. split; [exact Hname |].
    destruct (fc_args fc) as [| | | | | kvs]; try discriminate H.
    apply andb_true_iff in H. destruct H as [H Hlen].
    apply andb_true_iff in H. destruct H as [Hpat Huri].
    apply negb_true_iff in Hpat. apply Nat.eqb_eq in Hlen.
    destruct kvs as [| [k v] [| kv rest]]; try discriminate Hlen.
    cbn [get] in Huri. destruct (String.eqb k "pdfUri") eqn:Hk; [| discriminate Huri].
    apply String.eqb_eq in Hk. subst k. exists v. repeat split; assumption.
  - intros (Hname & uri & Hargs & Huri & Hpat).
    rewrite Hname, Hargs in *. rewrite Hpat. cbn [get String.eqb Ascii.eqb Bool.eqb andb negb length Nat.eqb].
    rewrite Huri. reflexivity.
Qed.

Lemma lookupCall_not_ok (env : Env) (c : Client) (fc : FunctionCall)
      (statusText : string) (body : option json) :
  validCall fc = true ->
  http env (fetchAddress fc) = HttpResponse false statusText body ->
  completion (lookupCall env c fc) = Threw ("Failed to fetch PDF content: " +:+ statusText).
Proof.
  intros Hv Hhttp. destruct (validCall_pdfUri fc Hv) as (uri & Huri & Ht).
  unfold lookupCall, fetchAddress in *. rewrite Huri in *. cbn [default] in Hhttp.
  rewrite Ht. cbn [negb]. rewrite completion_bind.
  unfold fetchPdfText. rewrite completion_bind. cbn [tell completion snd].
  change (toString (id uri)) with (toString uri) in Hhttp.
  rewrite Hhttp. reflexivity.
Qed.

(** X27: For a tool-call frame without code-syntax marker, handled by a client
    that owns a socket when the frame arrives and when its fetches have
    settled: one fetch answered with a status that is not a success fails the
    whole batch.  Every queued call is still requested, and every one of
    them, the calls whose fetch succeeded included, is answered with the
    uniform failure entry. *)
Theorem failed_status_fails_batch (env : Env) (c c' : Client) (w w' : WebSocket)
        (tc : ToolCall) (fc : FunctionCall) (statusText : string) (body : option json) :
  ws c = Some w -> ws c' = Some w' ->
  hasCodeSyntax (stringify (json_of_ToolCallMessage tc)) = false ->
  In fc (pdfLookupCalls tc) ->
  http env (fetchAddress fc) = HttpResponse false statusText body ->
  let t := trace (receive env c c' (ToolCallMessage tc)) in
  fetched t = map fetchAddress (pdfLookupCalls tc)
  /\ sent t
     = map (fun fr => ToolResponseMessage [fr]) (flat_map correctionEntries (functionCalls tc))
       ++ [ToolResponseMessage (map fetchFailedEntry (pdfLookupCalls tc))].
Proof.
  intros Hw Hw' Hclean Hin Hhttp t. subst t. cbn [receive].
  destruct (receiveToolCall_clean_effects env c c' w w' tc Hw Hw' Hclean) as (Hs & Hf & _).
  split; [exact Hf |]. rewrite Hs.
  assert (Hv : validCall fc = true) by (apply filter_In in Hin; apply Hin).
  rewrite (batchAnswer_failed env c _ fc _ Hin (lookupCall_not_ok env c fc _ _ Hv Hhttp)).
  destruct (pdfLookupCalls tc); [destruct Hin | reflexivity].
Qed.

Lemma failed_status_fails_batch_witness :
  ws connected = Some 1
  /\ In missingCall (pdfLookupCalls failingBatch)
  /\ fetched (trace (receive sampleEnv connected connected (ToolCallMessage failingBatch)))
     = map fetchAddress (pdfLookupCalls failingBatch).
Proof.
  assert (Hin : In missingCall (pdfLookupCalls failingBatch)) by (vm_compute; auto).
  split; [reflexivity |]. split; [exact Hin |].
  refine (proj1 (failed_status_fails_batch sampleEnv connected connected 1 1 failingBatch
                   missingCall "Not Found" None eq_refl eq_refl _ Hin _));
    vm_compute; reflexivity.
Defined.
